(** * Compute resource control: resource classes, quotas and resource pools

    A shallow embedding of [components/renku_data_services/crc/models.py].

    Conventions of the embedding.
    - Python [int] is [Z]; Python [str] is [string], ordered code point by
      code point; [Optional[T]] is [option T].
    - The [float] field [cpu] is a rational [Q]: on finite floats Python's
      [==], [<], [<=], [>], [>=] agree with the order of the rationals.
      NaN and the infinities are outside the model.
    - The models are frozen dataclasses.  The only writes are the
      [object.__setattr__] calls of [__post_init__], on the instance being
      built, and the dictionaries that [from_dict] rewrites are the fresh
      copies made by [asdict]; every operation is therefore a function from
      its receiver and arguments to a result, and a receiver is never
      changed by a call.
    - A raised exception is the [Raise] case of [result]. *)

From Stdlib Require Import Bool List ZArith QArith String Ascii Lia Permutation.
Import ListNotations.

Local Open Scope Z_scope.

(** ** Exceptions and results *)

Inductive exception : Type :=
| ValidationError (message : string)
| KeyError (key : string)
| TypeError (message : string).

Inductive result (A : Type) : Type :=
| Ok (a : A)
| Raise (e : exception).

Arguments Ok {A} a.
Arguments Raise {A} e.

Definition bind {A B : Type} (r : result A) (k : A -> result B) : result B :=
  match r with
  | Ok a => k a
  | Raise e => Raise e
  end.

Notation "x <- r ;; k" := (bind r (fun x => k))
  (at level 61, r at next level, right associativity).

(** A list comprehension whose body can raise: the first exception stops it. *)
Fixpoint comprehension {A B : Type} (f : A -> result B) (l : list A)
  : result (list B) :=
  match l with
  | [] => Ok []
  | x :: rest => y <- f x ;; ys <- comprehension f rest ;; Ok (y :: ys)
  end.

Definition raises_ValidationError {A : Type} (r : result A) : Prop :=
  exists message, r = Raise (ValidationError message).

(** ** Python built-ins used by the models *)

(** [sorted(l, key=key)]: a stable ascending sort that only ever asks
    whether one key is smaller than another.  [ltb a b] is
    [key(a) < key(b)]. *)
Section Sorted.
Context {A : Type} (ltb : A -> A -> bool).

Fixpoint insert (x : A) (l : list A) : list A :=
  match l with
  | [] => [x]
  | y :: rest => if ltb y x then y :: insert x rest else x :: y :: rest
  end.

Fixpoint sorted (l : list A) : list A :=
  match l with
  | [] => []
  | x :: rest => insert x (sorted rest)
  end.

(** No element is smaller than its predecessor. *)
Fixpoint ascending (l : list A) : Prop :=
  match l with
  | [] => True
  | x :: rest =>
      match rest with
      | [] => True
      | y :: _ => ltb y x = false
      end /\ ascending rest
  end.
End Sorted.

(** One step of Python's tuple comparison [a < b]: the first position where
    the tuples differ decides. *)
Definition lex {A : Type} (eqb ltb : A -> A -> bool) (x y : A) (rest : bool)
  : bool :=
  if eqb x y then rest else ltb x y.

(** What [==] and [<] are at one position of a key: an equivalence, and a
    strict order of its classes in which two values that are not
    equivalent are ordered one way or the other. *)
Record ordered_position {A : Type} (eqb ltb : A -> A -> bool) : Prop := {
  eqb_sym : forall x y, eqb x y = eqb y x;
  eqb_trans : forall x y z, eqb x y = true -> eqb y z = true -> eqb x z = true;
  ltb_eqb_l : forall x y z, eqb x y = true -> ltb x z = ltb y z;
  ltb_eqb_r : forall x y z, eqb x y = true -> ltb z x = ltb z y;
  ltb_irrefl : forall x y, eqb x y = true -> ltb x y = false;
  ltb_connected :
    forall x y, eqb x y = false -> ltb x y = false -> ltb y x = true;
  ltb_trans : forall x y z, ltb x y = true -> ltb y z = true -> ltb x z = true
}.

(** [False < True]. *)
Definition bool_ltb (x y : bool) : bool := negb x && y.

Definition Qltb (x y : Q) : bool := negb (Qle_bool y x).

(** ["\x00"]. *)
Definition NUL : ascii := Ascii.zero.

(** [c in s] for a one character string [c]. *)
Fixpoint contains (c : ascii) (s : string) : bool :=
  match s with
  | EmptyString => false
  | String a rest => Ascii.eqb a c || contains c rest
  end.

Definition len (s : string) : Z := Z.of_nat (String.length s).

(** [hash(v)] on the values that the fields of the models hold.  The
    integer that [hash] returns is not modelled, only whether it returns
    one: a list has no hash, and the hash of a tuple asks for the hash of
    every item in turn. *)
Unset Elimination Schemes.
Inductive value : Type :=
| VStr (s : string)
| VFloat (q : Q)
| VInt (z : Z)
| VBool (b : bool)
| VNone
| VObject (fields : list value)
| VList (items : list value).
Set Elimination Schemes.

Definition hash (v : value) : result unit :=
  match v with
  | VList _ => Raise (TypeError "unhashable type: 'list'")
  | _ => Ok tt
  end.

Fixpoint hash_tuple (items : list value) : result unit :=
  match items with
  | [] => Ok tt
  | v :: rest => _ <- hash v ;; hash_tuple rest
  end.

Definition optional {A : Type} (f : A -> value) (o : option A) : value :=
  match o with
  | Some a => f a
  | None => VNone
  end.

(** ** NodeAffinity *)

Module NodeAffinity.

Record t : Type := mk {
  key : string;
  required_during_scheduling : bool
}.

(** A plain dictionary with the keys of the dataclass. *)
Module Dict.
Record t : Type := mk {
  key : string;
  required_during_scheduling : bool
}.
End Dict.

Definition from_dict (data : Dict.t) : t :=
  {| key := Dict.key data;
     required_during_scheduling := Dict.required_during_scheduling data |}.

Definition asdict (a : t) : Dict.t :=
  {| Dict.key := key a;
     Dict.required_during_scheduling := required_during_scheduling a |}.

Definition to_value (a : t) : value :=
  VObject [VStr (key a); VBool (required_during_scheduling a)].

(** [(x.key, x.required_during_scheduling) < (y.key, ...)]. *)
Definition sort_key_ltb (x y : t) : bool :=
  lex String.eqb String.ltb (key x) (key y)
    (lex Bool.eqb bool_ltb
       (required_during_scheduling x) (required_during_scheduling y)
       false).

End NodeAffinity.

(** ** ResourceClass *)

Module ResourceClass.

Record t : Type := mk {
  name : string;
  cpu : Q;
  memory : Z;
  max_storage : Z;
  gpu : Z;
  id : option Z;
  default : bool;
  default_storage : Z;
  matching : option bool;
  node_affinities : list NodeAffinity.t;
  tolerations : list string
}.

Definition msg_nul : string :=
  String "'" (String NUL "' is not allowed in 'name' field.").

(** [__post_init__], run by the generated [__init__] on the fields as
    they were passed: three checks, then both lists are replaced by their
    sorted copies. *)
Definition post_init (self : t) : result t :=
  if contains NUL (name self) then
    Raise (ValidationError msg_nul)
  else if len (name self) >? 40 then
    Raise (ValidationError "'name' cannot be longer than 40 characters.")
  else if default_storage self >? max_storage self then
    Raise (ValidationError
      "The default storage cannot be larger than the max allowable storage.")
  else
    Ok {| name := name self;
          cpu := cpu self;
          memory := memory self;
          max_storage := max_storage self;
          gpu := gpu self;
          id := id self;
          default := default self;
          default_storage := default_storage self;
          matching := matching self;
          node_affinities :=
            sorted NodeAffinity.sort_key_ltb (node_affinities self);
          tolerations := sorted String.ltb (tolerations self) |}.

(** The conditions under which [__post_init__] raises, read off its three
    checks. *)
Definition rejected (c : t) : Prop :=
  contains NUL (name c) = true \/ 40 < len (name c)
  \/ max_storage c < default_storage c.

(** The dictionary that [asdict] makes of a class, every key present.  An
    entry of ["node_affinities"] is a dictionary or already a
    [NodeAffinity]. *)
Module Dict.
Record t : Type := mk {
  name : string;
  cpu : Q;
  memory : Z;
  max_storage : Z;
  gpu : Z;
  id : option Z;
  default : bool;
  default_storage : Z;
  matching : option bool;
  node_affinities : list (NodeAffinity.Dict.t + NodeAffinity.t);
  tolerations : list string
}.
End Dict.

Definition from_dict (data : Dict.t) : result t :=
  post_init
    {| name := Dict.name data;
       cpu := Dict.cpu data;
       memory := Dict.memory data;
       max_storage := Dict.max_storage data;
       gpu := Dict.gpu data;
       id := Dict.id data;
       default := Dict.default data;
       default_storage := Dict.default_storage data;
       matching := Dict.matching data;
       node_affinities :=
         map (fun affinity =>
                match affinity with
                | inl d => NodeAffinity.from_dict d
                | inr a => a
                end)
             (Dict.node_affinities data);
       tolerations := map (fun toleration => toleration)
                          (Dict.tolerations data) |}.

Definition asdict (self : t) : Dict.t :=
  {| Dict.name := name self;
     Dict.cpu := cpu self;
     Dict.memory := memory self;
     Dict.max_storage := max_storage self;
     Dict.gpu := gpu self;
     Dict.id := id self;
     Dict.default := default self;
     Dict.default_storage := default_storage self;
     Dict.matching := matching self;
     Dict.node_affinities :=
       map (fun a => inl (NodeAffinity.asdict a)) (node_affinities self);
     Dict.tolerations := tolerations self |}.

(** The arguments of a construction with the two lists replaced. *)
Definition with_lists (self : t) (affinities : list NodeAffinity.t)
  (tols : list string) : t :=
  {| name := name self;
     cpu := cpu self;
     memory := memory self;
     max_storage := max_storage self;
     gpu := gpu self;
     id := id self;
     default := default self;
     default_storage := default_storage self;
     matching := matching self;
     node_affinities := affinities;
     tolerations := tols |}.

(** [__hash__] as [@dataclass(frozen=True, eq=True)] generates it: the
    hash of the tuple of all fields, in the order of their declaration. *)
Definition hash (self : t) : result unit :=
  hash_tuple
    [ VStr (name self); VFloat (cpu self); VInt (memory self);
      VInt (max_storage self); VInt (gpu self); optional VInt (id self);
      VBool (default self); VInt (default_storage self);
      optional VBool (matching self);
      VList (map NodeAffinity.to_value (node_affinities self));
      VList (map VStr (tolerations self)) ].

(** An instance is something [__init__] returned: building it again from
    its own fields gives it back. *)
Definition valid (c : t) : Prop := post_init c = Ok c.

(** The key of [sorted] in [ResourcePool.__post_init__]:
    [(x.default, x.cpu, x.memory, x.default_storage, x.name)]. *)
Definition sort_key_ltb (x y : t) : bool :=
  lex Bool.eqb bool_ltb (default x) (default y)
    (lex Qeq_bool Qltb (cpu x) (cpu y)
       (lex Z.eqb Z.ltb (memory x) (memory y)
          (lex Z.eqb Z.ltb (default_storage x) (default_storage y)
             (lex String.eqb String.ltb (name x) (name y) false)))).

End ResourceClass.

(** ** GpuKind and Quota *)

Module GpuKind.

Inductive t : Type := NVIDIA | AMD.

(** [GpuKind[name]]: look a member up by its name. *)
Definition getitem (member : string) : result t :=
  if String.eqb member "NVIDIA" then Ok NVIDIA
  else if String.eqb member "AMD" then Ok AMD
  else Raise (KeyError member).

(** The name and the value of a member, as the class body gives them. *)
Definition name (k : t) : string :=
  match k with
  | NVIDIA => "NVIDIA"
  | AMD => "AMD"
  end.

Definition value (k : t) : string :=
  match k with
  | NVIDIA => "nvidia.com"
  | AMD => "amd.com"
  end.

End GpuKind.

(** [uuid4()] is an input of the model: a 128 bit number.  [str] of a UUID
    is its 32 lower case hexadecimal digits, grouped 8-4-4-4-12. *)
Module UUID.

Definition hex_digit (n : N) : ascii :=
  match n with
  | 0%N => "0" | 1%N => "1" | 2%N => "2" | 3%N => "3"
  | 4%N => "4" | 5%N => "5" | 6%N => "6" | 7%N => "7"
  | 8%N => "8" | 9%N => "9" | 10%N => "a" | 11%N => "b"
  | 12%N => "c" | 13%N => "d" | 14%N => "e" | _ => "f"
  end%char.

(** The [count] lowest hexadecimal digits of [n], most significant first,
    put in front of [acc]. *)
Fixpoint hex (count : nat) (n : N) (acc : string) : string :=
  match count with
  | O => acc
  | S k => hex k (N.div n 16) (String (hex_digit (N.modulo n 16)) acc)
  end.

Definition str (uuid : N) : string :=
  let digits := hex 32 uuid "" in
  (substring 0 8 digits ++ "-" ++ substring 8 4 digits ++ "-"
   ++ substring 12 4 digits ++ "-" ++ substring 16 4 digits ++ "-"
   ++ substring 20 12 digits)%string.

End UUID.

Module Quota.

Record t : Type := mk {
  cpu : Q;
  memory : Z;
  gpu : Z;
  gpu_kind : GpuKind.t;
  id : option string
}.

(** A dictionary for [from_dict].  ["gpu_kind"] may be missing, and holds
    a [GpuKind] or the name of one; a missing ["id"] is [None]. *)
Module Dict.
Record t : Type := mk {
  cpu : Q;
  memory : Z;
  gpu : Z;
  gpu_kind : option (GpuKind.t + string);
  id : option string
}.
End Dict.

Definition from_dict (data : Dict.t) : result t :=
  kind <- match Dict.gpu_kind data with
          | Some (inl k) => Ok k
          | Some (inr member) => GpuKind.getitem member
          | None => Ok GpuKind.NVIDIA
          end ;;
  Ok {| cpu := Dict.cpu data;
        memory := Dict.memory data;
        gpu := Dict.gpu data;
        gpu_kind := kind;
        id := Dict.id data |}.

Definition asdict (self : t) : Dict.t :=
  {| Dict.cpu := cpu self;
     Dict.memory := memory self;
     Dict.gpu := gpu self;
     Dict.gpu_kind := Some (inl (gpu_kind self));
     Dict.id := id self |}.

(** [{**asdict(self), "id": value}]. *)
Definition with_id (data : Dict.t) (value : string) : Dict.t :=
  {| Dict.cpu := Dict.cpu data;
     Dict.memory := Dict.memory data;
     Dict.gpu := Dict.gpu data;
     Dict.gpu_kind := Dict.gpu_kind data;
     Dict.id := Some value |}.

(** [generate_id], given the number that [uuid4()] draws. *)
Definition generate_id (uuid4 : N) (self : t) : result t :=
  match id self with
  | Some _ => Ok self
  | None => from_dict (with_id (asdict self) (UUID.str uuid4))
  end.

End Quota.

(** ** ResourcesCompareMixin *)

Module ResourcesCompareMixin.

(** The two classes that inherit the mixin. *)
Inductive resources : Type :=
| Class (rc : ResourceClass.t)
| Quota_ (quota : Quota.t).

Definition cpu (r : resources) : Q :=
  match r with
  | Class rc => ResourceClass.cpu rc
  | Quota_ q => Quota.cpu q
  end.

Definition memory (r : resources) : Z :=
  match r with
  | Class rc => ResourceClass.memory rc
  | Quota_ q => Quota.memory q
  end.

Definition gpu (r : resources) : Z :=
  match r with
  | Class rc => ResourceClass.gpu rc
  | Quota_ q => Quota.gpu q
  end.

(** [getattr(r, "max_storage", 99999999999999999999999)]: a quota has no
    such attribute. *)
Definition max_storage (r : resources) : Z :=
  match r with
  | Class rc => ResourceClass.max_storage rc
  | Quota_ _ => 99999999999999999999999
  end.

(** A comparison lambda is used at [float] and at [int]. *)
Record compare_func : Type := {
  at_float : Q -> Q -> bool;
  at_int : Z -> Z -> bool
}.

(** [all(results)]. *)
Definition all (results : list bool) : bool := forallb (fun b => b) results.

Definition compare (self other : resources) (f : compare_func) : bool :=
  let results := [ at_float f (cpu self) (cpu other);
                   at_int f (memory self) (memory other);
                   at_int f (gpu self) (gpu other) ] in
  let self_storage := max_storage self in
  let other_storage := max_storage other in
  all (results ++ [at_int f self_storage other_storage]).

Definition ge (self other : resources) : bool :=
  compare self other
    {| at_float := fun x y => Qle_bool y x; at_int := fun x y => y <=? x |}.

Definition gt (self other : resources) : bool :=
  compare self other
    {| at_float := fun x y => Qltb y x; at_int := fun x y => y <? x |}.

Definition lt (self other : resources) : bool :=
  compare self other
    {| at_float := fun x y => Qltb x y; at_int := fun x y => x <? y |}.

Definition le (self other : resources) : bool :=
  compare self other
    {| at_float := fun x y => Qle_bool x y; at_int := fun x y => x <=? y |}.

End ResourcesCompareMixin.

(** [ResourceClass.is_quota_valid]: [quota >= self]. *)
Definition is_quota_valid (self : ResourceClass.t) (quota : Quota.t) : bool :=
  ResourcesCompareMixin.ge
    (ResourcesCompareMixin.Quota_ quota) (ResourcesCompareMixin.Class self).

(** [Quota.is_resource_class_compatible]: [rc <= self]. *)
Definition is_resource_class_compatible (self : Quota.t) (rc : ResourceClass.t)
  : bool :=
  ResourcesCompareMixin.le
    (ResourcesCompareMixin.Class rc) (ResourcesCompareMixin.Quota_ self).

(** ** ResourcePool *)

Module ResourcePool.

Record t : Type := mk {
  name : string;
  classes : list ResourceClass.t;
  quota : option Quota.t;
  id : option Z;
  default : bool;
  public : bool
}.

Definition msg_nul : string := ResourceClass.msg_nul.

Definition msg_incompatible (cls : ResourceClass.t) : string :=
  ("The resource class with name " ++ ResourceClass.name cls
   ++ " is not compatible with the quota.")%string.

(** The loop of [__post_init__] over [list(self.classes)], with the
    default classes collected so far. *)
Fixpoint collect_defaults (quota : option Quota.t)
  (todo default_classes : list ResourceClass.t)
  : result (list ResourceClass.t) :=
  match todo with
  | [] => Ok default_classes
  | cls :: rest =>
      if match quota with
         | Some q => negb (is_resource_class_compatible q cls)
         | None => false
         end
      then Raise (ValidationError (msg_incompatible cls))
      else collect_defaults quota rest
             (if ResourceClass.default cls
              then default_classes ++ [cls]
              else default_classes)
  end.

Definition is_not_None {A : Type} (o : option A) : bool :=
  match o with
  | Some _ => true
  | None => false
  end.

(** [__post_init__] on the fields as passed to [__init__]. *)
Definition post_init (self : t) : result t :=
  if contains NUL (name self) then
    Raise (ValidationError msg_nul)
  else if len (name self) >? 40 then
    Raise (ValidationError "'name' cannot be longer than 40 characters.")
  else if default self && negb (public self) then
    Raise (ValidationError "The default resource pool has to be public.")
  else if default self && is_not_None (quota self) then
    Raise (ValidationError "A default resource pool cannot have a quota.")
  else
    default_classes <- collect_defaults (quota self) (classes self) [] ;;
    if negb (Z.of_nat (List.length default_classes) =? 1) then
      Raise (ValidationError
               "One default class is required in each resource pool.")
    else
      Ok {| name := name self;
            classes := sorted ResourceClass.sort_key_ltb (classes self);
            quota := quota self;
            id := id self;
            default := default self;
            public := public self |}.

(** The dictionary given to [from_dict], every key present: what
    [asdict] makes of a pool, with some values replaced by keyword
    arguments.  A class or a quota is a dictionary or an instance; a
    ["classes"] value is a list. *)
Module Dict.
Record t : Type := mk {
  name : string;
  classes : list (ResourceClass.Dict.t + ResourceClass.t);
  quota : option (Quota.Dict.t + Quota.t);
  id : option Z;
  default : bool;
  public : bool
}.
End Dict.

(** The [quota] of [from_dict]: a dictionary is converted, a [Quota] is
    taken as it is, anything else leaves [None]. *)
Definition quota_of (v : option (Quota.Dict.t + Quota.t))
  : result (option Quota.t) :=
  match v with
  | Some (inl d) => q <- Quota.from_dict d ;; Ok (Some q)
  | Some (inr q) => Ok (Some q)
  | None => Ok None
  end.

(** [ResourceClass.from_dict(c) if isinstance(c, dict) else c]. *)
Definition class_of (c : ResourceClass.Dict.t + ResourceClass.t)
  : result ResourceClass.t :=
  match c with
  | inl d => ResourceClass.from_dict d
  | inr rc => Ok rc
  end.

Definition from_dict (data : Dict.t) : result t :=
  quota <- quota_of (Dict.quota data) ;;
  classes <- comprehension class_of (Dict.classes data) ;;
  post_init {| name := Dict.name data;
               id := Dict.id data;
               classes := classes;
               quota := quota;
               default := Dict.default data;
               public := Dict.public data |}.

Definition asdict (self : t) : Dict.t :=
  {| Dict.name := name self;
     Dict.classes := map (fun c => inl (ResourceClass.asdict c))
                         (classes self);
     Dict.quota := option_map (fun q => inl (Quota.asdict q)) (quota self);
     Dict.id := id self;
     Dict.default := default self;
     Dict.public := public self |}.

(** The keyword arguments of [update]: for every field, the new value if
    the field is named. *)
Module Kwargs.
Record t : Type := mk {
  name : option string;
  classes : option (list (ResourceClass.Dict.t + ResourceClass.t));
  quota : option (option (Quota.Dict.t + Quota.t));
  id : option (option Z);
  default : option bool;
  public : option bool
}.

(** [update(default=d)] and [update(classes=l)]. *)
Definition only_default (d : bool) : t :=
  {| name := None; classes := None; quota := None; id := None;
     default := Some d; public := None |}.

Definition only_classes
  (l : list (ResourceClass.Dict.t + ResourceClass.t)) : t :=
  {| name := None; classes := Some l; quota := None; id := None;
     default := None; public := None |}.

(** [update()] and [update(quota=val)]. *)
Definition empty : t :=
  {| name := None; classes := None; quota := None; id := None;
     default := None; public := None |}.

Definition only_quota (val : Quota.t) : t :=
  {| name := None; classes := None; quota := Some (Some (inr val));
     id := None; default := None; public := None |}.

Definition or_else {A : Type} (second first : option A) : option A :=
  match second with
  | Some v => Some v
  | None => first
  end.

(** [{**first, **second}]: the arguments of two updates, the later one
    winning. *)
Definition override (first second : t) : t :=
  {| name := or_else (name second) (name first);
     classes := or_else (classes second) (classes first);
     quota := or_else (quota second) (quota first);
     id := or_else (id second) (id first);
     default := or_else (default second) (default first);
     public := or_else (public second) (public first) |}.

(** The classes passed as instances are instances of [ResourceClass]. *)
Definition instances (kwargs : t) : Prop :=
  match classes kwargs with
  | Some l =>
      Forall (fun c => match c with
                       | inl _ => True
                       | inr rc => ResourceClass.valid rc
                       end) l
  | None => True
  end.

End Kwargs.

Definition get {A : Type} (patched : option A) (current : A) : A :=
  match patched with
  | Some v => v
  | None => current
  end.

(** [{**data, **kwargs}]. *)
Definition merge (data : Dict.t) (kwargs : Kwargs.t) : Dict.t :=
  {| Dict.name := get (Kwargs.name kwargs) (Dict.name data);
     Dict.classes := get (Kwargs.classes kwargs) (Dict.classes data);
     Dict.quota := get (Kwargs.quota kwargs) (Dict.quota data);
     Dict.id := get (Kwargs.id kwargs) (Dict.id data);
     Dict.default := get (Kwargs.default kwargs) (Dict.default data);
     Dict.public := get (Kwargs.public kwargs) (Dict.public data) |}.

Definition msg_incompatiable (cls : ResourceClass.t) : string :=
  ("The resource class with name " ++ ResourceClass.name cls
   ++ " is not compatiable with the quota.")%string.

(** The loop of [set_quota]. *)
Fixpoint check_quota (val : Quota.t) (todo : list ResourceClass.t)
  : result unit :=
  match todo with
  | [] => Ok tt
  | cls :: rest =>
      if negb (is_resource_class_compatible val cls)
      then Raise (ValidationError (msg_incompatiable cls))
      else check_quota val rest
  end.

Definition set_quota (self : t) (val : Quota.t) : result t :=
  _ <- check_quota val (classes self) ;;
  from_dict
    (merge (asdict self)
       {| Kwargs.name := None; Kwargs.classes := None;
          Kwargs.quota := Some (Some (inr val)); Kwargs.id := None;
          Kwargs.default := None; Kwargs.public := None |}).

Definition update (self : t) (kwargs : Kwargs.t) : result t :=
  if default self
     && match Kwargs.default kwargs with
        | Some d => negb d
        | None => false
        end
  then Raise (ValidationError
                "A default resource pool cannot be made non-default.")
  else from_dict (merge (asdict self) kwargs).

(** The five rules of the construction, in the words of the
    specification: the conditions under which a pool is refused. *)
Definition violation (p : t) : Prop :=
  (contains NUL (name p) = true \/ 40 < len (name p)) \/
  (default p = true /\ public p = false) \/
  (default p = true /\ quota p <> None) \/
  (exists q c, quota p = Some q /\ In c (classes p)
               /\ is_resource_class_compatible q c = false) \/
  List.length (filter ResourceClass.default (classes p)) <> 1%nat.

(** The same conditions as a test. *)
Definition compatible_with (quota : option Quota.t) (c : ResourceClass.t)
  : bool :=
  match quota with
  | Some q => is_resource_class_compatible q c
  | None => true
  end.

Definition violates (p : t) : bool :=
  contains NUL (name p) || (len (name p) >? 40)
  || (default p && negb (public p))
  || (default p && is_not_None (quota p))
  || negb (forallb (compatible_with (quota p)) (classes p))
  || negb (Nat.eqb
             (List.length (filter ResourceClass.default (classes p))) 1).

(** The pool with another quota. *)
Definition with_quota (p : t) (q : Quota.t) : t :=
  {| name := name p;
     classes := classes p;
     quota := Some q;
     id := id p;
     default := default p;
     public := public p |}.

(** A pool instance: [__init__] returned it, from instances of
    [ResourceClass]. *)
Definition valid (p : t) : Prop :=
  post_init p = Ok p /\ Forall ResourceClass.valid (classes p).

End ResourcePool.

(** ** Examples *)

Module Examples.

Definition small : ResourceClass.t :=
  {| ResourceClass.name := "small"; ResourceClass.cpu := 1 # 2;
     ResourceClass.memory := 1; ResourceClass.max_storage := 10;
     ResourceClass.gpu := 0; ResourceClass.id := Some 1;
     ResourceClass.default := true; ResourceClass.default_storage := 1;
     ResourceClass.matching := None;
     ResourceClass.node_affinities :=
       [ {| NodeAffinity.key := "a";
            NodeAffinity.required_during_scheduling := false |};
         {| NodeAffinity.key := "b";
            NodeAffinity.required_during_scheduling := true |} ];
     ResourceClass.tolerations := ["t1"; "t2"]%string |}.

Definition large : ResourceClass.t :=
  {| ResourceClass.name := "large"; ResourceClass.cpu := 2;
     ResourceClass.memory := 4; ResourceClass.max_storage := 10;
     ResourceClass.gpu := 0; ResourceClass.id := Some 2;
     ResourceClass.default := false; ResourceClass.default_storage := 1;
     ResourceClass.matching := Some true;
     ResourceClass.node_affinities := [];
     ResourceClass.tolerations := [] |}.

Definition quota_4_8_1 : Quota.t :=
  {| Quota.cpu := 4; Quota.memory := 8; Quota.gpu := 1;
     Quota.gpu_kind := GpuKind.NVIDIA; Quota.id := None |}.

Definition quota_1_8_1 : Quota.t :=
  {| Quota.cpu := 1; Quota.memory := 8; Quota.gpu := 1;
     Quota.gpu_kind := GpuKind.AMD; Quota.id := Some "q"%string |}.

(** A private pool with a quota, and the default pool. *)
Definition private_pool : ResourcePool.t :=
  {| ResourcePool.name := "private"; ResourcePool.classes := [large; small];
     ResourcePool.quota := Some quota_4_8_1; ResourcePool.id := Some 7;
     ResourcePool.default := false; ResourcePool.public := false |}.

Definition default_pool : ResourcePool.t :=
  {| ResourcePool.name := "default"; ResourcePool.classes := [large; small];
     ResourcePool.quota := None; ResourcePool.id := Some 1;
     ResourcePool.default := true; ResourcePool.public := true |}.

(** Two measures that differ in memory only, and one with more memory and
    less cpu than [large]. *)
Definition lean : ResourcesCompareMixin.resources :=
  ResourcesCompareMixin.Quota_
    {| Quota.cpu := 1; Quota.memory := 1; Quota.gpu := 0;
       Quota.gpu_kind := GpuKind.NVIDIA; Quota.id := None |}.

Definition roomy : ResourcesCompareMixin.resources :=
  ResourcesCompareMixin.Quota_
    {| Quota.cpu := 1; Quota.memory := 2; Quota.gpu := 0;
       Quota.gpu_kind := GpuKind.NVIDIA; Quota.id := None |}.

Definition big_memory : ResourcesCompareMixin.resources :=
  ResourcesCompareMixin.Quota_
    {| Quota.cpu := 1; Quota.memory := 8; Quota.gpu := 0;
       Quota.gpu_kind := GpuKind.NVIDIA; Quota.id := None |}.

(** The arguments of a class without a name. *)
Definition nameless : ResourceClass.t :=
  {| ResourceClass.name := ""; ResourceClass.cpu := 1;
     ResourceClass.memory := 1; ResourceClass.max_storage := 1;
     ResourceClass.gpu := 0; ResourceClass.id := None;
     ResourceClass.default := false; ResourceClass.default_storage := 1;
     ResourceClass.matching := None;
     ResourceClass.node_affinities := [];
     ResourceClass.tolerations := [] |}.

(** The lists of [small] in the opposite order. *)
Definition reversed_affinities : list NodeAffinity.t :=
  rev (ResourceClass.node_affinities small).

Definition reversed_tolerations : list string :=
  rev (ResourceClass.tolerations small).

(** [update(classes=[small, large])]. *)
Definition classes_small_first : ResourcePool.Kwargs.t :=
  ResourcePool.Kwargs.only_classes [inr small; inr large].

(** A class with more of every resource than [large], and a class with
    the resources of [large] under another name. *)
Definition huge : ResourceClass.t :=
  {| ResourceClass.name := "huge"; ResourceClass.cpu := 8;
     ResourceClass.memory := 16; ResourceClass.max_storage := 100;
     ResourceClass.gpu := 1; ResourceClass.id := Some 3;
     ResourceClass.default := false; ResourceClass.default_storage := 5;
     ResourceClass.matching := None;
     ResourceClass.node_affinities := [];
     ResourceClass.tolerations := [] |}.

Definition large_twin : ResourceClass.t :=
  {| ResourceClass.name := "twin"; ResourceClass.cpu := 4 # 2;
     ResourceClass.memory := 4; ResourceClass.max_storage := 10;
     ResourceClass.gpu := 0; ResourceClass.id := None;
     ResourceClass.default := true; ResourceClass.default_storage := 2;
     ResourceClass.matching := None;
     ResourceClass.node_affinities := [];
     ResourceClass.tolerations := [] |}.

(** [update(quota={"cpu": 4, "memory": 8, "gpu": 1, "gpu_kind":
    "nvidia.com"})]: the kind by its value. *)
Definition quota_dict_by_value : Quota.Dict.t :=
  {| Quota.Dict.cpu := 4; Quota.Dict.memory := 8; Quota.Dict.gpu := 1;
     Quota.Dict.gpu_kind := Some (inr (GpuKind.value GpuKind.NVIDIA));
     Quota.Dict.id := None |}.

Definition quota_by_value : ResourcePool.Kwargs.t :=
  {| ResourcePool.Kwargs.name := None;
     ResourcePool.Kwargs.classes := None;
     ResourcePool.Kwargs.quota := Some (Some (inl quota_dict_by_value));
     ResourcePool.Kwargs.id := None;
     ResourcePool.Kwargs.default := None;
     ResourcePool.Kwargs.public := None |}.

Definition quota_8_8_1 : Quota.t :=
  {| Quota.cpu := 8; Quota.memory := 8; Quota.gpu := 1;
     Quota.gpu_kind := GpuKind.AMD; Quota.id := None |}.

(** [private_pool] after [set_quota(quota_8_8_1)], and [quota_4_8_1] after
    [generate_id()] when [uuid4()] draws 7. *)
Definition roomy_pool : ResourcePool.t :=
  ResourcePool.with_quota private_pool quota_8_8_1.

Definition quota_with_id : Quota.t :=
  {| Quota.cpu := 4; Quota.memory := 8; Quota.gpu := 1;
     Quota.gpu_kind := GpuKind.NVIDIA; Quota.id := Some (UUID.str 7) |}.

(** [update(name="shared", public=True)], [update(quota=None, id=8)], the
    pools they give one after the other, and both in one. *)
Definition rename_public : ResourcePool.Kwargs.t :=
  {| ResourcePool.Kwargs.name := Some "shared"%string;
     ResourcePool.Kwargs.classes := None;
     ResourcePool.Kwargs.quota := None;
     ResourcePool.Kwargs.id := None;
     ResourcePool.Kwargs.default := None;
     ResourcePool.Kwargs.public := Some true |}.

Definition drop_quota : ResourcePool.Kwargs.t :=
  {| ResourcePool.Kwargs.name := None;
     ResourcePool.Kwargs.classes := None;
     ResourcePool.Kwargs.quota := Some None;
     ResourcePool.Kwargs.id := Some (Some 8);
     ResourcePool.Kwargs.default := None;
     ResourcePool.Kwargs.public := None |}.

Definition shared_pool : ResourcePool.t :=
  {| ResourcePool.name := "shared"; ResourcePool.classes := [large; small];
     ResourcePool.quota := Some quota_4_8_1; ResourcePool.id := Some 7;
     ResourcePool.default := false; ResourcePool.public := true |}.

Definition open_pool : ResourcePool.t :=
  {| ResourcePool.name := "shared"; ResourcePool.classes := [large; small];
     ResourcePool.quota := None; ResourcePool.id := Some 8;
     ResourcePool.default := false; ResourcePool.public := true |}.

End Examples.

(** * Properties *)

(** ** Sorting *)

Section SortedFacts.
Context {A : Type} (ltb : A -> A -> bool).

Lemma insert_Permutation (x : A) (l : list A) :
  Permutation (insert ltb x l) (x :: l).
Proof.
  induction l as [|y rest IH]; simpl.
  - apply Permutation_refl.
  - destruct (ltb y x).
    + apply perm_trans with (y :: x :: rest).
      * apply perm_skip, IH.
      * apply perm_swap.
    + apply Permutation_refl.
Qed.

Lemma sorted_Permutation (l : list A) : Permutation (sorted ltb l) l.
Proof.
  induction l as [|x rest IH]; simpl.
  - apply perm_nil.
  - apply perm_trans with (x :: sorted ltb rest).
    + apply insert_Permutation.
    + apply perm_skip, IH.
Qed.

(** A list that is already in order is returned as it is: the sort is
    stable. *)
Lemma sorted_ascending_id (l : list A) :
  ascending ltb l -> sorted ltb l = l.
Proof.
  induction l as [|x rest IH]; simpl; [reflexivity|].
  intros [Hhead Hrest]. rewrite (IH Hrest).
  destruct rest as [|y rest']; simpl; [reflexivity|].
  now rewrite Hhead.
Qed.

Hypothesis ltb_asym : forall x y, ltb x y = true -> ltb y x = false.

Lemma insert_ascending (x : A) (l : list A) :
  ascending ltb l -> ascending ltb (insert ltb x l).
Proof.
  induction l as [|y rest IH]; simpl.
  - auto.
  - intros [Hhead Hrest]. destruct (ltb y x) eqn:Hyx.
    + specialize (IH Hrest). split; [|exact IH].
      destruct rest as [|z rest']; simpl.
      * now apply ltb_asym.
      * destruct (ltb z x); [exact Hhead | now apply ltb_asym].
    + simpl. auto.
Qed.

Lemma sorted_is_ascending (l : list A) : ascending ltb (sorted ltb l).
Proof.
  induction l as [|x rest IH]; simpl; [exact I|].
  now apply insert_ascending.
Qed.

Lemma sorted_idempotent (l : list A) :
  sorted ltb (sorted ltb l) = sorted ltb l.
Proof. apply sorted_ascending_id, sorted_is_ascending. Qed.

(** When the keys are totally ordered and equal keys mean equal elements,
    the result does not depend on the order of the input. *)
Hypothesis ltb_total : forall x y, ltb x y = false -> ltb y x = false -> x = y.
Hypothesis ltb_between :
  forall x y z, ltb z y = true -> ltb z x = false -> ltb x y = true.

Lemma insert_insert (x y : A) (l : list A) :
  insert ltb x (insert ltb y l) = insert ltb y (insert ltb x l).
Proof.
  induction l as [|z rest IH]; simpl.
  - destruct (ltb y x) eqn:Hyx, (ltb x y) eqn:Hxy; try reflexivity.
    + apply ltb_asym in Hyx. congruence.
    + now rewrite (ltb_total x y Hxy Hyx).
  - destruct (ltb z y) eqn:Hzy, (ltb z x) eqn:Hzx; simpl;
      rewrite ?Hzy, ?Hzx.
    + now rewrite IH.
    + now rewrite (ltb_between x y z Hzy Hzx).
    + now rewrite (ltb_between y x z Hzx Hzy).
    + destruct (ltb y x) eqn:Hyx, (ltb x y) eqn:Hxy; simpl;
        rewrite ?Hzy, ?Hzx; try reflexivity.
      * apply ltb_asym in Hyx. congruence.
      * now rewrite (ltb_total x y Hxy Hyx).
Qed.

Lemma sorted_of_Permutation (l1 l2 : list A) :
  Permutation l1 l2 -> sorted ltb l1 = sorted ltb l2.
Proof.
  induction 1; simpl.
  - reflexivity.
  - now f_equal.
  - apply insert_insert.
  - congruence.
Qed.
End SortedFacts.

(** ** The orders on keys *)

Lemma lex_asym {A : Type} (eqb ltb : A -> A -> bool) (x y : A) (r r' : bool) :
  eqb y x = eqb x y ->
  (ltb x y = true -> ltb y x = false) ->
  (r = true -> r' = false) ->
  lex eqb ltb x y r = true -> lex eqb ltb y x r' = false.
Proof.
  unfold lex. intros ->. destruct (eqb x y); auto.
Qed.

Lemma bool_ltb_asym (x y : bool) : bool_ltb x y = true -> bool_ltb y x = false.
Proof. now destruct x, y. Qed.

Lemma Qltb_lt (x y : Q) : Qltb x y = true <-> (x < y)%Q.
Proof.
  unfold Qltb. rewrite negb_true_iff. split.
  - intros H. apply Qnot_le_lt. intros Hle.
    apply Qle_bool_iff in Hle. congruence.
  - intros H. destruct (Qle_bool y x) eqn:E; [|reflexivity].
    apply Qle_bool_iff in E. exfalso. now apply (Qlt_not_le x y).
Qed.

Lemma Qltb_asym (x y : Q) : Qltb x y = true -> Qltb y x = false.
Proof.
  intros H. destruct (Qltb y x) eqn:E; [|reflexivity].
  apply Qltb_lt in H. apply Qltb_lt in E.
  exfalso. apply (Qlt_irrefl x). now apply Qlt_trans with y.
Qed.

Lemma Zltb_asym (x y : Z) : (x <? y) = true -> (y <? x) = false.
Proof. rewrite Z.ltb_lt, Z.ltb_ge. lia. Qed.

Lemma ascii_compare_trans (a b c : ascii) :
  Ascii.compare a b = Lt -> Ascii.compare b c = Lt -> Ascii.compare a c = Lt.
Proof.
  unfold Ascii.compare. rewrite !N.compare_lt_iff. apply N.lt_trans.
Qed.

Lemma ascii_compare_refl (a : ascii) : Ascii.compare a a = Eq.
Proof. apply N.compare_refl. Qed.

Lemma string_compare_trans (x y z : string) :
  String.compare x y = Lt -> String.compare y z = Lt ->
  String.compare x z = Lt.
Proof.
  revert y z. induction x as [|a x IH]; intros [|b y] [|c z]; simpl;
    try congruence.
  destruct (Ascii.compare a b) eqn:Hab; try discriminate;
    destruct (Ascii.compare b c) eqn:Hbc; try discriminate; intros H1 H2.
  - apply Ascii.compare_eq_iff in Hab, Hbc. subst.
    rewrite ascii_compare_refl. now apply IH with y.
  - apply Ascii.compare_eq_iff in Hab. subst. now rewrite Hbc.
  - apply Ascii.compare_eq_iff in Hbc. subst. now rewrite Hab.
  - now rewrite (ascii_compare_trans a b c Hab Hbc).
Qed.

Lemma string_ltb_asym (x y : string) :
  String.ltb x y = true -> String.ltb y x = false.
Proof.
  unfold String.ltb. rewrite (String.compare_antisym y x).
  now destruct (String.compare x y).
Qed.

Lemma string_ltb_total (x y : string) :
  String.ltb x y = false -> String.ltb y x = false -> x = y.
Proof.
  unfold String.ltb. rewrite (String.compare_antisym y x).
  destruct (String.compare x y) eqn:E; simpl; try discriminate.
  intros _ _. now apply String.compare_eq_iff.
Qed.

Lemma string_ltb_between (x y z : string) :
  String.ltb z y = true -> String.ltb z x = false -> String.ltb x y = true.
Proof.
  unfold String.ltb.
  destruct (String.compare z y) eqn:Hzy; try discriminate. intros _.
  destruct (String.compare z x) eqn:Hzx; try discriminate; intros _.
  - apply String.compare_eq_iff in Hzx. subst. now rewrite Hzy.
  - assert (Hxz : String.compare x z = Lt)
      by (rewrite String.compare_antisym, Hzx; reflexivity).
    now rewrite (string_compare_trans x z y Hxz Hzy).
Qed.

(** The key of a node affinity is the whole of it, and the keys are totally
    ordered. *)
Lemma affinity_ltb_asym (x y : NodeAffinity.t) :
  NodeAffinity.sort_key_ltb x y = true -> NodeAffinity.sort_key_ltb y x = false.
Proof.
  unfold NodeAffinity.sort_key_ltb.
  apply lex_asym; [apply String.eqb_sym | apply string_ltb_asym |].
  apply lex_asym; [| apply bool_ltb_asym | discriminate].
  now destruct (NodeAffinity.required_during_scheduling x),
               (NodeAffinity.required_during_scheduling y).
Qed.

Lemma affinity_ltb_total (x y : NodeAffinity.t) :
  NodeAffinity.sort_key_ltb x y = false ->
  NodeAffinity.sort_key_ltb y x = false -> x = y.
Proof.
  destruct x as [kx rx], y as [ky ry].
  unfold NodeAffinity.sort_key_ltb, lex; simpl.
  rewrite (String.eqb_sym ky kx).
  destruct (String.eqb_spec kx ky) as [->|Hk].
  - destruct rx, ry; cbv; congruence.
  - intros H1 H2. exfalso. apply Hk. now apply string_ltb_total.
Qed.

Lemma affinity_ltb_between (x y z : NodeAffinity.t) :
  NodeAffinity.sort_key_ltb z y = true ->
  NodeAffinity.sort_key_ltb z x = false ->
  NodeAffinity.sort_key_ltb x y = true.
Proof.
  destruct x as [kx rx], y as [ky ry], z as [kz rz].
  unfold NodeAffinity.sort_key_ltb, lex; simpl.
  destruct (String.eqb_spec kz ky) as [->|Hzy];
    destruct (String.eqb_spec ky kx) as [->|Hyx];
    try rewrite String.eqb_refl.
  - destruct rx, ry, rz; cbv; congruence.
  - destruct (String.eqb_spec kx ky) as [->|Hxy]; [congruence|].
    intros _ H. destruct (String.ltb kx ky) eqn:E; [reflexivity|].
    exfalso. apply Hxy. now apply string_ltb_total.
  - destruct (String.eqb_spec kz kx) as [->|Hzx]; [congruence|].
    intros H1 H2. congruence.
  - destruct (String.eqb_spec kx ky) as [->|Hxy]; [congruence|].
    destruct (String.eqb_spec kz kx) as [->|Hzx]; [congruence|].
    apply string_ltb_between.
Qed.

(** The key of a class in a pool: only asymmetry holds, two different
    classes can have the same key. *)
Lemma class_ltb_asym (x y : ResourceClass.t) :
  ResourceClass.sort_key_ltb x y = true ->
  ResourceClass.sort_key_ltb y x = false.
Proof.
  unfold ResourceClass.sort_key_ltb.
  apply lex_asym; [| apply bool_ltb_asym |].
  { now destruct (ResourceClass.default x), (ResourceClass.default y). }
  apply lex_asym; [apply Qeq_bool_comm | apply Qltb_asym |].
  apply lex_asym; [apply Z.eqb_sym | apply Zltb_asym |].
  apply lex_asym; [apply Z.eqb_sym | apply Zltb_asym |].
  apply lex_asym; [apply String.eqb_sym | apply string_ltb_asym | discriminate].
Qed.

(** ** Comparison of resources *)

Section Comparison.
Import ResourcesCompareMixin.

Lemma compare_and (A B : resources) (f : compare_func) :
  compare A B f = true <->
  at_float f (cpu A) (cpu B) = true /\
  at_int f (memory A) (memory B) = true /\
  at_int f (gpu A) (gpu B) = true /\
  at_int f (max_storage A) (max_storage B) = true.
Proof.
  unfold compare, all. simpl. rewrite !andb_true_iff. tauto.
Qed.

Lemma ge_iff (A B : resources) :
  ge A B = true <->
  (cpu B <= cpu A)%Q /\ memory B <= memory A /\ gpu B <= gpu A
  /\ max_storage B <= max_storage A.
Proof.
  unfold ge. rewrite compare_and. cbn [at_float at_int].
  now rewrite Qle_bool_iff, !Z.leb_le.
Qed.

Lemma gt_iff (A B : resources) :
  gt A B = true <->
  (cpu B < cpu A)%Q /\ memory B < memory A /\ gpu B < gpu A
  /\ max_storage B < max_storage A.
Proof.
  unfold gt. rewrite compare_and. cbn [at_float at_int].
  now rewrite Qltb_lt, !Z.ltb_lt.
Qed.

Lemma lt_iff (A B : resources) :
  lt A B = true <->
  (cpu A < cpu B)%Q /\ memory A < memory B /\ gpu A < gpu B
  /\ max_storage A < max_storage B.
Proof.
  unfold lt. rewrite compare_and. cbn [at_float at_int].
  now rewrite Qltb_lt, !Z.ltb_lt.
Qed.

Lemma le_iff (A B : resources) :
  le A B = true <->
  (cpu A <= cpu B)%Q /\ memory A <= memory B /\ gpu A <= gpu B
  /\ max_storage A <= max_storage B.
Proof.
  unfold le. rewrite compare_and. cbn [at_float at_int].
  now rewrite Qle_bool_iff, !Z.leb_le.
Qed.

(** C1. For resources [A] and [B], each a resource class or a quota,
    [A >= B], [A > B], [A < B] and [A <= B] hold exactly when the scalar
    comparison holds on each of cpu, memory, gpu and max_storage, where
    the max_storage of a quota is the constant 99999999999999999999999
    and that of a class is its field. *)
Theorem compare_is_componentwise_and (A B : resources) :
  (ge A B = true <->
     (cpu B <= cpu A)%Q /\ memory B <= memory A /\ gpu B <= gpu A
     /\ max_storage B <= max_storage A) /\
  (gt A B = true <->
     (cpu B < cpu A)%Q /\ memory B < memory A /\ gpu B < gpu A
     /\ max_storage B < max_storage A) /\
  (lt A B = true <->
     (cpu A < cpu B)%Q /\ memory A < memory B /\ gpu A < gpu B
     /\ max_storage A < max_storage B) /\
  (le A B = true <->
     (cpu A <= cpu B)%Q /\ memory A <= memory B /\ gpu A <= gpu B
     /\ max_storage A <= max_storage B) /\
  (forall q, max_storage (Quota_ q) = 99999999999999999999999) /\
  (forall rc, max_storage (Class rc) = ResourceClass.max_storage rc).
Proof.
  split; [apply ge_iff|]. split; [apply gt_iff|].
  split; [apply lt_iff|]. split; [apply le_iff|].
  split; reflexivity.
Qed.

(** C10. Between two quotas [>] and [<] never hold: both sides take the
    same constant for max_storage. *)
Theorem quota_strict_comparison_false (q1 q2 : Quota.t) :
  gt (Quota_ q1) (Quota_ q2) = false /\ lt (Quota_ q1) (Quota_ q2) = false.
Proof.
  split; apply not_true_is_false.
  - rewrite gt_iff. cbn [max_storage]. lia.
  - rewrite lt_iff. cbn [max_storage]. lia.
Qed.

(** C7, as stated, fails: with equal cpu and gpu and less memory on [A],
    [B >= A] holds. *)
Lemma tradeoff_not_always_incomparable :
  ((cpu Examples.roomy <= cpu Examples.lean)%Q /\
   memory Examples.lean < memory Examples.roomy /\
   gpu Examples.roomy <= gpu Examples.lean) /\
  ~ (ge Examples.lean Examples.roomy = false /\
     ge Examples.roomy Examples.lean = false).
Proof.
  split.
  - repeat split; discriminate.
  - intros [_ H]. vm_compute in H. discriminate.
Qed.

(** C7, amended. When [A.cpu >= B.cpu], [A.memory < B.memory] and
    [A.gpu >= B.gpu], [A >= B] is false; and [B >= A] is false exactly
    when [A] is strictly larger on cpu, on gpu or on max_storage. *)
Theorem tradeoff_incomparable_iff_strict (A B : resources) :
  (cpu B <= cpu A)%Q -> memory A < memory B -> gpu B <= gpu A ->
  ge A B = false /\
  (ge B A = false <->
     (cpu B < cpu A)%Q \/ gpu B < gpu A \/ max_storage B < max_storage A).
Proof.
  intros Hcpu Hmem Hgpu. split.
  - apply not_true_is_false. rewrite ge_iff. lia.
  - rewrite <- not_true_iff_false, ge_iff. split.
    + intros Hnot.
      destruct (Qlt_le_dec (cpu B) (cpu A)) as [Hlt|Hle]; [now left|].
      destruct (Z_lt_le_dec (gpu B) (gpu A)) as [Hlt|Hle']; [now right; left|].
      destruct (Z_lt_le_dec (max_storage B) (max_storage A)) as [Hlt|Hle''];
        [now right; right|].
      exfalso. apply Hnot. repeat split; try assumption. lia.
    + intros Hstrict (H1 & H2 & H3 & H4).
      destruct Hstrict as [H|[H|H]]; try lia.
      now apply (Qlt_not_le _ _ H).
Qed.

Lemma tradeoff_incomparable_iff_strict_witness :
  ((cpu Examples.big_memory <= cpu (Class Examples.large))%Q /\
   memory (Class Examples.large) < memory Examples.big_memory /\
   gpu Examples.big_memory <= gpu (Class Examples.large)) /\
  ge (Class Examples.large) Examples.big_memory = false /\
  (ge Examples.big_memory (Class Examples.large) = false <->
     (cpu Examples.big_memory < cpu (Class Examples.large))%Q
     \/ gpu Examples.big_memory < gpu (Class Examples.large)
     \/ max_storage Examples.big_memory < max_storage (Class Examples.large)).
Proof.
  split.
  - repeat split; discriminate.
  - apply (tradeoff_incomparable_iff_strict
             (Class Examples.large) Examples.big_memory);
      solve [discriminate | reflexivity].
Defined.
End Comparison.

(** ** ResourceClass *)

Section ResourceClassFacts.
Import ResourceClass.

Lemma post_init_raises_iff (c : t) :
  raises_ValidationError (post_init c) <-> rejected c.
Proof.
  unfold raises_ValidationError, rejected, post_init.
  destruct (contains NUL (name c)).
  { split; [now left | eauto]. }
  destruct (Z.gtb_spec (len (name c)) 40) as [Hlen|Hlen].
  { split; [right; left; lia | eauto]. }
  destruct (Z.gtb_spec (default_storage c) (max_storage c)) as [Hsto|Hsto].
  { split; [right; right; lia | eauto]. }
  split.
  - intros [m H]. discriminate.
  - intros [H|[H|H]]; [discriminate | lia | lia].
Qed.

Lemma post_init_returns_iff (c : t) :
  (exists c', post_init c = Ok c') <-> ~ rejected c.
Proof.
  rewrite <- post_init_raises_iff. unfold raises_ValidationError, post_init.
  destruct (contains NUL (name c)).
  { split; [intros [c' H]; discriminate | intros H; exfalso; eauto]. }
  destruct (len (name c) >? 40).
  { split; [intros [c' H]; discriminate | intros H; exfalso; eauto]. }
  destruct (default_storage c >? max_storage c).
  { split; [intros [c' H]; discriminate | intros H; exfalso; eauto]. }
  split; [intros _ [m H]; discriminate | eauto].
Qed.

(** C6, as stated, fails: an empty name is outside 1 to 40 characters and
    the construction succeeds. *)
Lemma empty_name_is_accepted :
  ~ (raises_ValidationError (post_init Examples.nameless) <->
     contains NUL (name Examples.nameless) = true
     \/ ~ (1 <= len (name Examples.nameless) <= 40)
     \/ max_storage Examples.nameless < default_storage Examples.nameless).
Proof.
  intros [_ H].
  destruct H as [m Hm]; [right; left; vm_compute; intuition discriminate|].
  discriminate.
Qed.

(** C6, amended. Constructing a ResourceClass raises ValidationError
    exactly when the name contains NUL, or the name is longer than 40
    characters, or default_storage > max_storage; otherwise it returns an
    instance. *)
Theorem ResourceClass_construction (c : t) :
  (raises_ValidationError (post_init c) <->
     contains NUL (name c) = true \/ 40 < len (name c)
     \/ max_storage c < default_storage c) /\
  ((exists c', post_init c = Ok c') <->
     ~ (contains NUL (name c) = true \/ 40 < len (name c)
        \/ max_storage c < default_storage c)).
Proof.
  split; [apply post_init_raises_iff | apply post_init_returns_iff].
Qed.

Lemma hash_raises (c : t) :
  hash c = Raise (TypeError "unhashable type: 'list'").
Proof.
  unfold hash. simpl.
  destruct (id c), (matching c); reflexivity.
Qed.

Lemma post_init_with_lists (c : t) (affinities : list NodeAffinity.t)
  (tols : list string) :
  Permutation (node_affinities c) affinities ->
  Permutation (tolerations c) tols ->
  post_init (with_lists c affinities tols) = post_init c.
Proof.
  intros Ha Ht. unfold post_init, with_lists. simpl.
  rewrite (sorted_of_Permutation NodeAffinity.sort_key_ltb
             affinity_ltb_asym affinity_ltb_total affinity_ltb_between
             _ _ Ha).
  rewrite (sorted_of_Permutation String.ltb
             string_ltb_asym string_ltb_total string_ltb_between
             _ _ Ht).
  reflexivity.
Qed.

(** C9, as stated, fails: two constructions that differ in the order of
    their lists give equal instances, and [hash] of such an instance
    raises TypeError, so that there is no hash to be identical. *)
Lemma constructed_class_has_no_hash :
  ~ (exists r1 r2,
       post_init Examples.small = Ok r1 /\
       post_init (with_lists Examples.small Examples.reversed_affinities
                    Examples.reversed_tolerations) = Ok r2 /\
       r1 = r2 /\ hash r1 = Ok tt /\ hash r2 = Ok tt).
Proof.
  intros (r1 & r2 & _ & _ & _ & H & _).
  rewrite hash_raises in H. discriminate.
Qed.

(** C9, amended. Two constructions of a ResourceClass that agree on all
    fields and receive the same node affinities and the same tolerations
    in different orders have the same outcome: both raise the same
    error, or both return the same instance, whose node_affinities are
    the given ones in ascending order of (key,
    required_during_scheduling) and whose tolerations are the given ones
    in ascending order.  The instance has no hash: [hash] raises
    TypeError, the two fields being lists. *)
Theorem construction_ignores_order (c : t)
  (affinities : list NodeAffinity.t) (tols : list string) :
  Permutation (node_affinities c) affinities ->
  Permutation (tolerations c) tols ->
  post_init (with_lists c affinities tols) = post_init c /\
  match post_init c with
  | Ok r =>
      Permutation (node_affinities r) affinities /\
      ascending NodeAffinity.sort_key_ltb (node_affinities r) /\
      Permutation (tolerations r) tols /\
      ascending String.ltb (tolerations r) /\
      hash r = Raise (TypeError "unhashable type: 'list'")
  | Raise _ => True
  end.
Proof.
  intros Ha Ht. split; [now apply post_init_with_lists|].
  unfold post_init.
  destruct (contains NUL (name c)); [exact I|].
  destruct (len (name c) >? 40); [exact I|].
  destruct (default_storage c >? max_storage c); [exact I|].
  cbn [node_affinities tolerations].
  split; [|split; [|split; [|split]]].
  - eapply perm_trans; [apply sorted_Permutation | exact Ha].
  - apply sorted_is_ascending, affinity_ltb_asym.
  - eapply perm_trans; [apply sorted_Permutation | exact Ht].
  - apply sorted_is_ascending, string_ltb_asym.
  - apply hash_raises.
Qed.

Lemma construction_ignores_order_witness :
  (Permutation (node_affinities Examples.small) Examples.reversed_affinities /\
   Permutation (tolerations Examples.small) Examples.reversed_tolerations) /\
  post_init (with_lists Examples.small Examples.reversed_affinities
               Examples.reversed_tolerations)
  = post_init Examples.small /\
  match post_init Examples.small with
  | Ok r =>
      Permutation (node_affinities r) Examples.reversed_affinities /\
      ascending NodeAffinity.sort_key_ltb (node_affinities r) /\
      Permutation (tolerations r) Examples.reversed_tolerations /\
      ascending String.ltb (tolerations r) /\
      hash r = Raise (TypeError "unhashable type: 'list'")
  | Raise _ => True
  end.
Proof.
  assert (Ha : Permutation (node_affinities Examples.small)
                 Examples.reversed_affinities)
    by apply Permutation_rev.
  assert (Ht : Permutation (tolerations Examples.small)
                 Examples.reversed_tolerations)
    by apply Permutation_rev.
  split; [split; assumption|].
  exact (construction_ignores_order Examples.small
           Examples.reversed_affinities Examples.reversed_tolerations Ha Ht).
Defined.
End ResourceClassFacts.

(** ** Quota *)

Section QuotaFacts.
Import Quota.

Lemma str_uuid_length (uuid : N) : String.length (UUID.str uuid) = 36%nat.
Proof. reflexivity. Qed.

Lemma from_dict_asdict (q : t) : from_dict (asdict q) = Ok q.
Proof. now destruct q. Qed.

(** C8. [generate_id] returns a quota that has an id as it is.  For a
    quota without id it returns a quota with the same cpu, memory, gpu
    and gpu_kind whose id is [str(uuid4())], a string of 36 characters.
    A second call on the result returns the result itself, whatever
    [uuid4()] draws then. *)
Theorem generate_id_spec (uuid4 uuid4' : N) (q : t) :
  match id q with
  | Some _ => generate_id uuid4 q = Ok q
  | None =>
      generate_id uuid4 q =
        Ok {| cpu := cpu q; memory := memory q; gpu := gpu q;
              gpu_kind := gpu_kind q; id := Some (UUID.str uuid4) |} /\
      String.length (UUID.str uuid4) = 36%nat /\
      UUID.str uuid4 <> ""%string
  end /\
  exists q', generate_id uuid4 q = Ok q' /\ generate_id uuid4' q' = Ok q'
             /\ id q' <> None.
Proof.
  unfold generate_id. destruct q as [c m g k [i|]]; cbn [id].
  - split; [reflexivity|]. exists (mk c m g k (Some i)).
    repeat split. discriminate.
  - split.
    + split; [reflexivity|]. split; [apply str_uuid_length|].
      intros H. apply (f_equal String.length) in H.
      rewrite str_uuid_length in H. discriminate.
    + exists (mk c m g k (Some (UUID.str uuid4))).
      repeat split. discriminate.
Qed.
End QuotaFacts.

(** ** ResourcePool *)

Lemma Permutation_forallb {A : Type} (f : A -> bool) (l1 l2 : list A) :
  Permutation l1 l2 -> forallb f l1 = forallb f l2.
Proof.
  induction 1; simpl.
  - reflexivity.
  - now f_equal.
  - destruct (f x), (f y); reflexivity.
  - congruence.
Qed.

Lemma Permutation_filter_length {A : Type} (f : A -> bool) (l1 l2 : list A) :
  Permutation l1 l2 ->
  List.length (filter f l1) = List.length (filter f l2).
Proof.
  induction 1; simpl.
  - reflexivity.
  - destruct (f x); simpl; congruence.
  - destruct (f x), (f y); reflexivity.
  - congruence.
Qed.

Lemma forallb_false_exists {A : Type} (f : A -> bool) (l : list A) :
  forallb f l = false <-> exists x, In x l /\ f x = false.
Proof.
  induction l as [|a l IH]; simpl.
  - split; [discriminate | intros (x & [] & _)].
  - rewrite andb_false_iff, IH. split.
    + intros [Ha|(x & Hin & Hx)]; eauto.
    + intros (x & [->|Hin] & Hx); eauto.
Qed.

Lemma Z_of_nat_eqb_1 (n : nat) : (Z.of_nat n =? 1) = Nat.eqb n 1.
Proof.
  destruct n as [|[|n]]; try reflexivity.
  apply Z.eqb_neq. lia.
Qed.

Section ResourcePoolFacts.
Import ResourcePool.

Lemma collect_defaults_spec (quota : option Quota.t)
  (todo acc : list ResourceClass.t) :
  if forallb (compatible_with quota) todo
  then collect_defaults quota todo acc
       = Ok (acc ++ filter ResourceClass.default todo)
  else raises_ValidationError (collect_defaults quota todo acc).
Proof.
  revert acc. induction todo as [|c rest IH]; intros acc; simpl.
  - now rewrite app_nil_r.
  - assert (Hstep :
      if forallb (compatible_with quota) rest
      then collect_defaults quota rest
             (if ResourceClass.default c then acc ++ [c] else acc)
           = Ok (acc ++ (if ResourceClass.default c
                         then c :: filter ResourceClass.default rest
                         else filter ResourceClass.default rest))
      else raises_ValidationError
             (collect_defaults quota rest
                (if ResourceClass.default c then acc ++ [c] else acc))).
    { specialize (IH (if ResourceClass.default c then acc ++ [c] else acc)).
      destruct (forallb (compatible_with quota) rest); [|exact IH].
      rewrite IH. destruct (ResourceClass.default c); [|reflexivity].
      now rewrite <- app_assoc. }
    destruct quota as [q|]; simpl.
    + destruct (is_resource_class_compatible q c); simpl.
      * exact Hstep.
      * unfold raises_ValidationError. eauto.
    + exact Hstep.
Qed.

Lemma post_init_spec (p : t) :
  if violates p
  then raises_ValidationError (post_init p)
  else post_init p
       = Ok {| name := name p;
               classes := sorted ResourceClass.sort_key_ltb (classes p);
               quota := quota p;
               id := id p;
               default := default p;
               public := public p |}.
Proof.
  unfold violates, post_init, raises_ValidationError.
  destruct (contains NUL (name p)); [simpl; eauto|].
  destruct (len (name p) >? 40); [simpl; eauto|].
  destruct (default p && negb (public p)); [simpl; eauto|].
  destruct (default p && is_not_None (quota p)); [simpl; eauto|].
  cbn [orb].
  pose proof (collect_defaults_spec (quota p) (classes p) []) as H.
  destruct (forallb (compatible_with (quota p)) (classes p)); cbn [negb orb].
  - rewrite H. cbn [bind app]. rewrite Z_of_nat_eqb_1.
    destruct (Nat.eqb _ 1); cbn [negb]; eauto.
  - destruct H as [m ->]. cbn [bind]. eauto.
Qed.

Lemma violates_iff (p : t) : violates p = true <-> violation p.
Proof.
  unfold violates, violation.
  rewrite !orb_true_iff, !andb_true_iff, !negb_true_iff.
  rewrite Nat.eqb_neq, forallb_false_exists.
  assert (Hlen : (len (name p) >? 40) = true <-> 40 < len (name p))
    by (rewrite Z.gtb_ltb, Z.ltb_lt; reflexivity).
  assert (Hquota : is_not_None (quota p) = true <-> quota p <> None)
    by (destruct (quota p); simpl; split; congruence).
  assert (Hcompat :
    (exists c, In c (classes p) /\ compatible_with (quota p) c = false) <->
    (exists q c, quota p = Some q /\ In c (classes p)
                 /\ is_resource_class_compatible q c = false)).
  { destruct (quota p) as [q|]; simpl; split.
    - intros (c & Hin & Hc). eauto.
    - intros (q' & c & Hq & Hin & Hc). injection Hq as <-. eauto.
    - intros (c & _ & Hc). discriminate.
    - intros (q' & c & Hq & _). discriminate. }
  rewrite Hlen, Hquota, Hcompat. tauto.
Qed.

Lemma post_init_raises_iff_violation (p : t) :
  raises_ValidationError (post_init p) <-> violation p.
Proof.
  rewrite <- violates_iff. pose proof (post_init_spec p) as H.
  destruct (violates p).
  - tauto.
  - rewrite H. split; [intros [m Hm]|]; discriminate.
Qed.

(** What [__post_init__] returns obeys the five rules. *)
Lemma post_init_Ok_violates (p r : t) :
  post_init p = Ok r -> violates p = false /\ violates r = false.
Proof.
  intros Hr. pose proof (post_init_spec p) as H.
  destruct (violates p) eqn:Hv.
  - destruct H as [m Hm]. congruence.
  - split; [reflexivity|]. rewrite H in Hr. injection Hr as <-.
    unfold violates in *. cbn [name classes quota id default public].
    rewrite (Permutation_forallb _ _ _ (sorted_Permutation _ (classes p))).
    rewrite (Permutation_filter_length _ _ _
               (sorted_Permutation _ (classes p))).
    exact Hv.
Qed.

Lemma valid_inv (p : t) :
  valid p ->
  violates p = false /\
  sorted ResourceClass.sort_key_ltb (classes p) = classes p.
Proof.
  intros [Hp _]. split.
  - now apply (post_init_Ok_violates p p).
  - pose proof (post_init_spec p) as H.
    destruct (violates p).
    + destruct H as [m Hm]. congruence.
    + rewrite H in Hp. injection Hp as Hp.
      now apply (f_equal classes) in Hp.
Qed.

Lemma from_dict_Ok_violates (data : Dict.t) (r : t) :
  from_dict data = Ok r -> violates r = false.
Proof.
  unfold from_dict.
  destruct (quota_of (Dict.quota data)); [|discriminate].
  destruct (comprehension class_of (Dict.classes data)); [|discriminate].
  cbn [bind]. intros H. now apply post_init_Ok_violates in H.
Qed.

(** [asdict] followed by [from_dict] gives an instance back. *)
Lemma class_of_asdict (c : ResourceClass.t) :
  ResourceClass.valid c -> class_of (inl (ResourceClass.asdict c)) = Ok c.
Proof.
  intros Hc. unfold class_of, ResourceClass.from_dict, ResourceClass.asdict.
  cbn. rewrite map_map, map_id.
  rewrite (map_ext _ (fun a => a)), map_id.
  - destruct c. exact Hc.
  - now intros [k r].
Qed.

Lemma comprehension_asdict (cs : list ResourceClass.t) :
  Forall ResourceClass.valid cs ->
  comprehension class_of (map (fun c => inl (ResourceClass.asdict c)) cs)
  = Ok cs.
Proof.
  induction 1 as [|c cs Hc _ IH]; [reflexivity|].
  cbn [map comprehension]. rewrite (class_of_asdict c Hc), IH. reflexivity.
Qed.

Lemma quota_of_asdict (o : option Quota.t) :
  quota_of (option_map (fun q => inl (Quota.asdict q)) o) = Ok o.
Proof. destruct o as [[c m g k i]|]; reflexivity. Qed.

Lemma from_dict_merge (p : t) (kwargs : Kwargs.t) :
  valid p ->
  from_dict (merge (asdict p) kwargs) =
    (quota <- match Kwargs.quota kwargs with
              | Some v => quota_of v
              | None => Ok (quota p)
              end ;;
     classes <- match Kwargs.classes kwargs with
                | Some l => comprehension class_of l
                | None => Ok (classes p)
                end ;;
     post_init {| name := get (Kwargs.name kwargs) (name p);
                  id := get (Kwargs.id kwargs) (id p);
                  classes := classes;
                  quota := quota;
                  default := get (Kwargs.default kwargs) (default p);
                  public := get (Kwargs.public kwargs) (public p) |}).
Proof.
  intros [_ Hcs]. unfold from_dict, merge, asdict.
  cbn [Dict.name Dict.classes Dict.quota Dict.id Dict.default Dict.public].
  destruct (Kwargs.quota kwargs), (Kwargs.classes kwargs); cbn [get];
    rewrite ?quota_of_asdict, ?(comprehension_asdict _ Hcs); reflexivity.
Qed.

Lemma post_init_Ok_fields (p r : t) :
  post_init p = Ok r ->
  r = {| name := name p;
         classes := sorted ResourceClass.sort_key_ltb (classes p);
         quota := quota p;
         id := id p;
         default := default p;
         public := public p |}.
Proof.
  intros Hr. pose proof (post_init_spec p) as H.
  destruct (violates p).
  - destruct H as [m Hm]. congruence.
  - congruence.
Qed.

Lemma not_violation_iff (p : t) : ~ violation p <-> violates p = false.
Proof. rewrite <- violates_iff. now destruct (violates p). Qed.

Lemma update_Ok_violates (self : t) (kwargs : Kwargs.t) :
  match update self kwargs with
  | Ok r => ~ violation r
  | Raise _ => True
  end.
Proof.
  destruct (update self kwargs) as [r|e] eqn:H; [|exact I].
  apply not_violation_iff. unfold update in H.
  destruct (default self && _); [discriminate|].
  now apply from_dict_Ok_violates in H.
Qed.

Lemma set_quota_Ok_violates (self : t) (val : Quota.t) :
  match set_quota self val with
  | Ok r => ~ violation r
  | Raise _ => True
  end.
Proof.
  destruct (set_quota self val) as [r|e] eqn:H; [|exact I].
  apply not_violation_iff. unfold set_quota in H.
  destruct (check_quota val (classes self)); [|discriminate].
  cbn [bind] in H. now apply from_dict_Ok_violates in H.
Qed.

(** C2. Constructing a ResourcePool raises ValidationError exactly when
    the name contains NUL or is longer than 40 characters, or default is
    true while public is false, or default is true while a quota is
    present, or a quota is present and some class is not compatible with
    it, or the number of default classes is not one.  Otherwise it
    returns a pool, and that pool obeys the five rules; so does every
    pool that [update] or [set_quota] returns. *)
Theorem ResourcePool_construction (p : t) :
  (raises_ValidationError (post_init p) <->
     (contains NUL (name p) = true \/ 40 < len (name p)) \/
     (default p = true /\ public p = false) \/
     (default p = true /\ quota p <> None) \/
     (exists q c, quota p = Some q /\ In c (classes p)
                  /\ is_resource_class_compatible q c = false) \/
     List.length (filter ResourceClass.default (classes p)) <> 1%nat) /\
  ((exists r, post_init p = Ok r /\ ~ violation r) <-> ~ violation p) /\
  (forall self kwargs,
      match update self kwargs with
      | Ok r => ~ violation r
      | Raise _ => True
      end) /\
  (forall self val,
      match set_quota self val with
      | Ok r => ~ violation r
      | Raise _ => True
      end).
Proof.
  split; [apply post_init_raises_iff_violation|].
  split; [|split; [apply update_Ok_violates | apply set_quota_Ok_violates]].
  split.
  - intros (r & Hr & _). apply not_violation_iff.
    now apply (post_init_Ok_violates p r).
  - intros Hp. apply not_violation_iff in Hp.
    pose proof (post_init_spec p) as H. rewrite Hp in H.
    eexists. split; [exact H|]. apply not_violation_iff.
    now apply (post_init_Ok_violates p).
Qed.

(** *** set_quota *)

Lemma check_quota_spec (val : Quota.t) (todo : list ResourceClass.t) :
  if forallb (is_resource_class_compatible val) todo
  then check_quota val todo = Ok tt
  else raises_ValidationError (check_quota val todo).
Proof.
  induction todo as [|c rest IH]; simpl; [reflexivity|].
  destruct (is_resource_class_compatible val c); simpl; [exact IH|].
  unfold raises_ValidationError. eauto.
Qed.

Lemma set_quota_cases (p : t) (q : Quota.t) :
  valid p ->
  if forallb (is_resource_class_compatible q) (classes p) && negb (default p)
  then set_quota p q = Ok (with_quota p q)
  else raises_ValidationError (set_quota p q).
Proof.
  intros Hvalid. destruct (valid_inv p Hvalid) as [Hv Hsorted].
  unfold set_quota. rewrite (from_dict_merge p _ Hvalid).
  cbn [Kwargs.name Kwargs.classes Kwargs.quota Kwargs.id Kwargs.default
       Kwargs.public get quota_of bind].
  pose proof (check_quota_spec q (classes p)) as Hcheck.
  pose proof (post_init_spec (with_quota p q)) as Hpost.
  unfold violates in Hv, Hpost.
  cbn [with_quota name classes quota id default public is_not_None
       compatible_with] in Hpost.
  rewrite !orb_false_iff in Hv. destruct Hv as [[[[[H1 H2] H3] H4] H5] H6].
  rewrite H1, H2, H3, H6, andb_true_r in Hpost. cbn [orb] in Hpost.
  rewrite Hsorted in Hpost. fold (with_quota p q).
  change (compatible_with (Some q))
    with (is_resource_class_compatible q) in Hpost.
  rewrite orb_false_r in Hpost.
  destruct (forallb (is_resource_class_compatible q) (classes p)).
  - rewrite Hcheck. cbn [bind andb].
    destruct (default p) eqn:Hd; cbn [negb orb] in *; [exact Hpost|].
    rewrite Hpost. unfold with_quota. now rewrite Hd.
  - destruct Hcheck as [m ->]. cbn [bind andb].
    unfold raises_ValidationError. eauto.
Qed.

(** C3, as stated, fails: every class of the default pool is compatible
    with the quota, and [set_quota] raises ValidationError. *)
Lemma set_quota_on_default_pool_raises :
  valid Examples.default_pool /\
  ~ (raises_ValidationError
       (set_quota Examples.default_pool Examples.quota_4_8_1) <->
     exists c, In c (classes Examples.default_pool) /\
               is_resource_class_compatible Examples.quota_4_8_1 c = false).
Proof.
  split.
  - split; [reflexivity | repeat constructor].
  - intros [H _].
    destruct H as (c & Hin & Hc).
    + eexists. vm_compute. reflexivity.
    + destruct Hin as [<-|[<-|[]]]; vm_compute in Hc; discriminate.
Qed.

(** C3, amended. For a pool instance [p] and a quota [q], [set_quota]
    raises ValidationError exactly when some class of [p] is not
    compatible with [q] or [p] is a default pool; otherwise it returns
    the pool with the fields of [p] and the quota [q]. *)
Theorem set_quota_spec (p : t) (q : Quota.t) :
  valid p ->
  (raises_ValidationError (set_quota p q) <->
     (exists c, In c (classes p)
                /\ is_resource_class_compatible q c = false)
     \/ default p = true) /\
  (set_quota p q = Ok (with_quota p q) <->
     ~ ((exists c, In c (classes p)
                   /\ is_resource_class_compatible q c = false)
        \/ default p = true)).
Proof.
  intros Hvalid. pose proof (set_quota_cases p q Hvalid) as H.
  rewrite <- forallb_false_exists.
  destruct (forallb (is_resource_class_compatible q) (classes p));
    destruct (default p); cbn [andb negb] in H.
  - split; [tauto|]. destruct H as [m Hm]. rewrite Hm.
    split; [discriminate | tauto].
  - rewrite H. split.
    + split; [intros [m Hm]; discriminate | intros [?|?]; discriminate].
    + split; [intros _ [?|?]; discriminate | reflexivity].
  - split; [tauto|]. destruct H as [m Hm]. rewrite Hm.
    split; [discriminate | tauto].
  - split; [tauto|]. destruct H as [m Hm]. rewrite Hm.
    split; [discriminate | tauto].
Qed.

Lemma set_quota_spec_witness :
  valid Examples.private_pool /\
  (raises_ValidationError
     (set_quota Examples.private_pool Examples.quota_1_8_1) <->
     (exists c, In c (classes Examples.private_pool)
                /\ is_resource_class_compatible Examples.quota_1_8_1 c
                   = false)
     \/ default Examples.private_pool = true) /\
  (set_quota Examples.private_pool Examples.quota_1_8_1
   = Ok (with_quota Examples.private_pool Examples.quota_1_8_1) <->
     ~ ((exists c, In c (classes Examples.private_pool)
                   /\ is_resource_class_compatible Examples.quota_1_8_1 c
                      = false)
        \/ default Examples.private_pool = true)).
Proof.
  assert (Hvalid : valid Examples.private_pool)
    by (split; [reflexivity | repeat constructor]).
  split; [exact Hvalid|].
  exact (set_quota_spec Examples.private_pool Examples.quota_1_8_1 Hvalid).
Defined.

(** *** update *)

Lemma update_only_default_cases (p : t) :
  valid p ->
  if negb (public p) || is_not_None (quota p)
  then raises_ValidationError (update p (Kwargs.only_default true))
  else exists r, update p (Kwargs.only_default true) = Ok r.
Proof.
  intros Hvalid. destruct (valid_inv p Hvalid) as [Hv _].
  unfold update. cbn [Kwargs.only_default Kwargs.default negb].
  rewrite andb_false_r, (from_dict_merge p _ Hvalid).
  cbn [Kwargs.only_default Kwargs.name Kwargs.classes Kwargs.quota
       Kwargs.id Kwargs.default Kwargs.public get bind].
  match goal with
  | |- context [post_init ?x] => pose proof (post_init_spec x) as Hpost
  end.
  unfold violates in Hv, Hpost.
  cbn [name classes quota id default public] in Hpost.
  rewrite !orb_false_iff in Hv. destruct Hv as [[[[[H1 H2] _] _] H5] H6].
  rewrite H1, H2, H5, H6, !andb_true_l, !orb_false_r in Hpost.
  cbn [orb] in Hpost.
  destruct (negb (public p) || is_not_None (quota p)); eauto.
Qed.

(** C4. For a pool instance [p], [update] raises ValidationError when [p]
    is a default pool and the keyword arguments set default to false.  In
    every other case its outcome is that of [from_dict] on the merged
    fields, so that a pool it returns obeys the five rules; and
    [update(default=True)] raises ValidationError exactly when [p] is not
    public or has a quota. *)
Theorem update_default_rules (p : t) (kwargs : Kwargs.t) :
  valid p ->
  (if default p
      && match Kwargs.default kwargs with
         | Some d => negb d
         | None => false
         end
   then raises_ValidationError (update p kwargs)
   else update p kwargs = from_dict (merge (asdict p) kwargs) /\
        match update p kwargs with
        | Ok r => ~ violation r
        | Raise _ => True
        end) /\
  (raises_ValidationError (update p (Kwargs.only_default true)) <->
     public p = false \/ quota p <> None).
Proof.
  intros Hvalid. split.
  - destruct (default p && _) eqn:Hd.
    + unfold update. rewrite Hd. unfold raises_ValidationError. eauto.
    + split; [unfold update; now rewrite Hd | apply update_Ok_violates].
  - pose proof (update_only_default_cases p Hvalid) as H.
    destruct (public p), (quota p) as [q|]; cbn [negb orb is_not_None] in H.
    + split; [intros _; right; discriminate | intros _; exact H].
    + destruct H as [r Hr]. rewrite Hr. split.
      * intros [m Hm]. discriminate.
      * intros [?|?]; [discriminate | congruence].
    + split; [intros _; now left | intros _; exact H].
    + split; [intros _; now left | intros _; exact H].
Qed.

Lemma update_default_rules_witness :
  valid Examples.private_pool /\
  (if default Examples.private_pool
      && match Kwargs.default (Kwargs.only_default true) with
         | Some d => negb d
         | None => false
         end
   then raises_ValidationError
          (update Examples.private_pool (Kwargs.only_default true))
   else update Examples.private_pool (Kwargs.only_default true)
        = from_dict (merge (asdict Examples.private_pool)
                       (Kwargs.only_default true)) /\
        match update Examples.private_pool (Kwargs.only_default true) with
        | Ok r => ~ violation r
        | Raise _ => True
        end) /\
  (raises_ValidationError
     (update Examples.private_pool (Kwargs.only_default true)) <->
     public Examples.private_pool = false
     \/ quota Examples.private_pool <> None).
Proof.
  assert (Hvalid : valid Examples.private_pool)
    by (split; [reflexivity | repeat constructor]).
  split; [exact Hvalid|].
  exact (update_default_rules Examples.private_pool
           (Kwargs.only_default true) Hvalid).
Defined.

(** C5, as stated, fails: [update(classes=[small, large])] succeeds and
    the classes of the result are [[large, small]], not the patched
    value. *)
Lemma patched_classes_are_reordered :
  valid Examples.private_pool /\
  exists r,
    update Examples.private_pool Examples.classes_small_first = Ok r /\
    classes r <> [Examples.small; Examples.large].
Proof.
  split.
  - split; [reflexivity | repeat constructor].
  - exists Examples.private_pool. split; [reflexivity|].
    intros H. apply (f_equal (map ResourceClass.default)) in H.
    discriminate.
Qed.

(** C5, amended. When [update] of a pool instance [p] returns [r], every
    field that the keyword arguments do not name has in [r] the value it
    has in [p], classes and quota with all their fields.  A named name,
    id, default or public has the given value; a named quota is the
    given quota (converted by [Quota.from_dict] when it is a
    dictionary); and the named classes are the given classes (each
    converted by [ResourceClass.from_dict] when it is a dictionary) in
    ascending order of (default, cpu, memory, default_storage, name),
    classes with equal keys in the order given. *)
Theorem update_frame (p : t) (kwargs : Kwargs.t) (r : t) :
  valid p ->
  update p kwargs = Ok r ->
  name r = get (Kwargs.name kwargs) (name p) /\
  id r = get (Kwargs.id kwargs) (id p) /\
  default r = get (Kwargs.default kwargs) (default p) /\
  public r = get (Kwargs.public kwargs) (public p) /\
  match Kwargs.quota kwargs with
  | None => quota r = quota p
  | Some v => quota_of v = Ok (quota r)
  end /\
  match Kwargs.classes kwargs with
  | None => classes r = classes p
  | Some l =>
      exists cs, comprehension class_of l = Ok cs /\
                 classes r = sorted ResourceClass.sort_key_ltb cs
  end.
Proof.
  intros Hvalid Hupd. destruct (valid_inv p Hvalid) as [_ Hsorted].
  unfold update in Hupd. destruct (default p && _); [discriminate|].
  rewrite (from_dict_merge p kwargs Hvalid) in Hupd.
  destruct (match Kwargs.quota kwargs with
            | Some v => quota_of v
            | None => Ok (quota p)
            end) as [q'|] eqn:Hq; [|discriminate].
  destruct (match Kwargs.classes kwargs with
            | Some l => comprehension class_of l
            | None => Ok (classes p)
            end) as [cs|] eqn:Hcs; [|discriminate].
  cbn [bind] in Hupd. apply post_init_Ok_fields in Hupd. subst r.
  cbn [name classes quota id default public].
  repeat (split; [reflexivity|]). split.
  - destruct (Kwargs.quota kwargs); congruence.
  - destruct (Kwargs.classes kwargs).
    + eauto.
    + injection Hcs as <-. exact Hsorted.
Qed.

Lemma update_frame_witness :
  (valid Examples.private_pool /\
   update Examples.private_pool Examples.classes_small_first
   = Ok Examples.private_pool) /\
  name Examples.private_pool
  = get (Kwargs.name Examples.classes_small_first)
        (name Examples.private_pool) /\
  id Examples.private_pool
  = get (Kwargs.id Examples.classes_small_first)
        (id Examples.private_pool) /\
  default Examples.private_pool
  = get (Kwargs.default Examples.classes_small_first)
        (default Examples.private_pool) /\
  public Examples.private_pool
  = get (Kwargs.public Examples.classes_small_first)
        (public Examples.private_pool) /\
  match Kwargs.quota Examples.classes_small_first with
  | None => quota Examples.private_pool = quota Examples.private_pool
  | Some v => quota_of v = Ok (quota Examples.private_pool)
  end /\
  match Kwargs.classes Examples.classes_small_first with
  | None => classes Examples.private_pool = classes Examples.private_pool
  | Some l =>
      exists cs, comprehension class_of l = Ok cs /\
                 classes Examples.private_pool
                 = sorted ResourceClass.sort_key_ltb cs
  end.
Proof.
  assert (Hvalid : valid Examples.private_pool)
    by (split; [reflexivity | repeat constructor]).
  assert (Hupd : update Examples.private_pool Examples.classes_small_first
                 = Ok Examples.private_pool) by reflexivity.
  split; [split; assumption|].
  exact (update_frame Examples.private_pool Examples.classes_small_first
           Examples.private_pool Hvalid Hupd).
Defined.
End ResourcePoolFacts.

(** * Further properties of the models *)

(** ** The order on resources *)

Section ComparisonAlgebra.
Import ResourcesCompareMixin.

(** X1. [ResourceClass.is_quota_valid] and
    [Quota.is_resource_class_compatible] give the same answer, which is
    true exactly when cpu, memory and gpu of the class are at most those of
    the quota and the max_storage of the class is at most
    99999999999999999999999. *)
Theorem compatibility_two_ways (rc : ResourceClass.t) (q : Quota.t) :
  is_quota_valid rc q = is_resource_class_compatible q rc /\
  (is_resource_class_compatible q rc = true <->
     (ResourceClass.cpu rc <= Quota.cpu q)%Q /\
     ResourceClass.memory rc <= Quota.memory q /\
     ResourceClass.gpu rc <= Quota.gpu q /\
     ResourceClass.max_storage rc <= 99999999999999999999999).
Proof.
  split; [reflexivity|].
  unfold is_resource_class_compatible. rewrite le_iff. reflexivity.
Qed.

Lemma ge_le (A B : resources) : ge A B = le B A.
Proof. reflexivity. Qed.

Lemma gt_lt (A B : resources) : gt A B = lt B A.
Proof. reflexivity. Qed.

Lemma ge_refl (A : resources) : ge A A = true.
Proof.
  apply ge_iff. repeat split; try lia. apply Qle_refl.
Qed.

Lemma gt_irrefl (A : resources) : gt A A = false.
Proof.
  apply not_true_is_false. rewrite gt_iff. lia.
Qed.

(** X2. The four operators are consistent with each other: [A >= B] is
    [B <= A] and [A > B] is [B < A]; every resource is [>=] and [<=]
    itself, and never [>] or [<] itself. *)
Theorem operators_are_consistent (A B : resources) :
  ge A B = le B A /\ gt A B = lt B A /\
  ge A A = true /\ le A A = true /\ gt A A = false /\ lt A A = false.
Proof.
  split; [apply ge_le|]. split; [apply gt_lt|].
  split; [apply ge_refl|]. split; [rewrite <- ge_le; apply ge_refl|].
  split; [apply gt_irrefl|]. rewrite <- gt_lt. apply gt_irrefl.
Qed.

Lemma ge_trans (A B C : resources) :
  ge A B = true -> ge B C = true -> ge A C = true.
Proof.
  rewrite !ge_iff. intros (H1 & H2 & H3 & H4) (K1 & K2 & K3 & K4).
  repeat split; try lia. now apply Qle_trans with (cpu B).
Qed.

(** X3. [>=] is transitive, and so is [<=]: from [A >= B] and [B >= C]
    follow [A >= C] and [C <= A]. *)
Theorem ge_is_transitive (A B C : resources) :
  ge A B = true -> ge B C = true -> ge A C = true /\ le C A = true.
Proof.
  intros HAB HBC. rewrite <- ge_le. split; now apply ge_trans with B.
Qed.

Lemma ge_is_transitive_witness :
  (ge Examples.big_memory Examples.roomy = true /\
   ge Examples.roomy Examples.lean = true) /\
  ge Examples.big_memory Examples.lean = true /\
  le Examples.lean Examples.big_memory = true.
Proof.
  assert (H1 : ge Examples.big_memory Examples.roomy = true) by reflexivity.
  assert (H2 : ge Examples.roomy Examples.lean = true) by reflexivity.
  split; [split; assumption|].
  exact (ge_is_transitive Examples.big_memory Examples.roomy Examples.lean
           H1 H2).
Defined.

(** X4. [A > B] needs more of every resource: it implies [A >= B] and
    excludes [B >= A] and [B > A]. *)
Theorem gt_is_strict (A B : resources) :
  gt A B = true -> ge A B = true /\ ge B A = false /\ gt B A = false.
Proof.
  rewrite gt_iff. intros (H1 & H2 & H3 & H4). split; [|split].
  - apply ge_iff. repeat split; try lia. now apply Qlt_le_weak.
  - apply not_true_is_false. rewrite ge_iff. lia.
  - apply not_true_is_false. rewrite gt_iff. lia.
Qed.

Lemma gt_is_strict_witness :
  gt (Class Examples.huge) (Class Examples.large) = true /\
  ge (Class Examples.huge) (Class Examples.large) = true /\
  ge (Class Examples.large) (Class Examples.huge) = false /\
  gt (Class Examples.large) (Class Examples.huge) = false.
Proof.
  assert (H : gt (Class Examples.huge) (Class Examples.large) = true)
    by reflexivity.
  split; [exact H|].
  exact (gt_is_strict (Class Examples.huge) (Class Examples.large) H).
Defined.

(** X5. Two resources that are [>=] each other have the same cpu, memory,
    gpu and max_storage. *)
Theorem ge_is_antisymmetric (A B : resources) :
  ge A B = true -> ge B A = true ->
  (cpu A == cpu B)%Q /\ memory A = memory B /\ gpu A = gpu B
  /\ max_storage A = max_storage B.
Proof.
  rewrite !ge_iff. intros (H1 & H2 & H3 & H4) (K1 & K2 & K3 & K4).
  repeat split; try lia. now apply Qle_antisym.
Qed.

Lemma ge_is_antisymmetric_witness :
  (ge (Class Examples.large) (Class Examples.large_twin) = true /\
   ge (Class Examples.large_twin) (Class Examples.large) = true) /\
  (cpu (Class Examples.large) == cpu (Class Examples.large_twin))%Q /\
  memory (Class Examples.large) = memory (Class Examples.large_twin) /\
  gpu (Class Examples.large) = gpu (Class Examples.large_twin) /\
  max_storage (Class Examples.large) = max_storage (Class Examples.large_twin).
Proof.
  assert (H1 : ge (Class Examples.large) (Class Examples.large_twin) = true)
    by reflexivity.
  assert (H2 : ge (Class Examples.large_twin) (Class Examples.large) = true)
    by reflexivity.
  split; [split; assumption|].
  exact (ge_is_antisymmetric (Class Examples.large)
           (Class Examples.large_twin) H1 H2).
Defined.
End ComparisonAlgebra.

(** ** Building classes and quotas from dictionaries *)

Section ClassAndQuotaDictionaries.

Lemma class_post_init_valid (c r : ResourceClass.t) :
  ResourceClass.post_init c = Ok r -> ResourceClass.valid r.
Proof.
  unfold ResourceClass.valid, ResourceClass.post_init.
  destruct (contains NUL (ResourceClass.name c)) eqn:Hnul; [discriminate|].
  destruct (len (ResourceClass.name c) >? 40) eqn:Hlen; [discriminate|].
  destruct (ResourceClass.default_storage c >? ResourceClass.max_storage c)
    eqn:Hsto; [discriminate|].
  intros H. injection H as <-. cbn. rewrite Hnul, Hlen, Hsto.
  rewrite (sorted_idempotent _ affinity_ltb_asym).
  rewrite (sorted_idempotent _ string_ltb_asym).
  reflexivity.
Qed.



(** X7. [ResourceClass.from_dict] undoes [asdict]: from the dictionary of
    an instance it returns that instance. *)
Theorem ResourceClass_dict_round_trip (c : ResourceClass.t) :
  ResourceClass.valid c ->
  ResourceClass.from_dict (ResourceClass.asdict c) = Ok c.
Proof.
  intros Hc. unfold ResourceClass.from_dict, ResourceClass.asdict. cbn.
  rewrite map_map, map_id.
  rewrite (map_ext _ (fun a => a)), map_id.
  - destruct c. exact Hc.
  - now intros [k r].
Qed.

Lemma ResourceClass_dict_round_trip_witness :
  ResourceClass.valid Examples.small /\
  ResourceClass.from_dict (ResourceClass.asdict Examples.small)
  = Ok Examples.small.
Proof.
  assert (H : ResourceClass.valid Examples.small) by reflexivity.
  split; [exact H|].
  exact (ResourceClass_dict_round_trip Examples.small H).
Defined.

(** X8. [Quota.from_dict] looks a gpu kind up by the name of the member:
    ["NVIDIA"] and ["AMD"] give the members, the values ["nvidia.com"] and
    ["amd.com"] raise KeyError, a member is kept, and without the key the
    kind is NVIDIA.  The other fields are taken as they are. *)
Theorem Quota_from_dict_gpu_kind (c : Q) (m g : Z) (i : option string)
  (k : GpuKind.t) :
  Quota.from_dict (Quota.Dict.mk c m g (Some (inr (GpuKind.name k))) i)
  = Ok (Quota.mk c m g k i) /\
  Quota.from_dict (Quota.Dict.mk c m g (Some (inr (GpuKind.value k))) i)
  = Raise (KeyError (GpuKind.value k)) /\
  Quota.from_dict (Quota.Dict.mk c m g (Some (inl k)) i)
  = Ok (Quota.mk c m g k i) /\
  Quota.from_dict (Quota.Dict.mk c m g None i)
  = Ok (Quota.mk c m g GpuKind.NVIDIA i).
Proof.
  destruct k; repeat split; reflexivity.
Qed.
End ClassAndQuotaDictionaries.

(** ** Constructed pools *)

Section ConstructedPools.
Import ResourcePool.

Lemma key_ltb_default_last (x y : ResourceClass.t) :
  ResourceClass.default y = false -> ResourceClass.default x = true ->
  ResourceClass.sort_key_ltb y x = true.
Proof.
  intros Hy Hx. unfold ResourceClass.sort_key_ltb, lex.
  rewrite Hy, Hx. reflexivity.
Qed.

Lemma single_default_is_last (l : list ResourceClass.t) :
  ascending ResourceClass.sort_key_ltb l ->
  List.length (filter ResourceClass.default l) = 1%nat ->
  exists front d,
    l = front ++ [d] /\ ResourceClass.default d = true /\
    Forall (fun c => ResourceClass.default c = false) front.
Proof.
  induction l as [|x rest IH]; [discriminate|].
  intros [Hhead Hrest] Hcount. cbn [filter] in Hcount.
  destruct (ResourceClass.default x) eqn:Hx.
  - destruct rest as [|y rest'].
    + exists [], x. repeat split; auto.
    + exfalso. cbn [filter List.length] in Hcount.
      destruct (ResourceClass.default y) eqn:Hy.
      * discriminate.
      * rewrite (key_ltb_default_last x y Hy Hx) in Hhead. discriminate.
  - destruct (IH Hrest Hcount) as (front & d & Heq & Hd & Hfront).
    exists (x :: front), d. rewrite Heq. repeat split; auto.
Qed.

Lemma post_init_Ok_count (p r : t) :
  post_init p = Ok r ->
  List.length (filter ResourceClass.default (classes r)) = 1%nat.
Proof.
  intros H. apply post_init_Ok_violates in H. destruct H as [_ Hv].
  unfold violates in Hv. rewrite !orb_false_iff in Hv.
  destruct Hv as [_ Hv]. apply negb_false_iff in Hv.
  now apply Nat.eqb_eq.
Qed.

(** X9. The classes of a constructed pool are the classes it was given,
    none lost and none added, in ascending order of (default, cpu, memory,
    default_storage, name); the one default class is the last of them. *)
Theorem ResourcePool_classes_are_arranged (p r : t) :
  post_init p = Ok r ->
  Permutation (classes r) (classes p) /\
  ascending ResourceClass.sort_key_ltb (classes r) /\
  exists front d,
    classes r = front ++ [d] /\ ResourceClass.default d = true /\
    Forall (fun c => ResourceClass.default c = false) front.
Proof.
  intros H. pose proof (post_init_Ok_count p r H) as Hcount.
  pose proof (post_init_Ok_fields p r H) as Hr.
  assert (Hcs : classes r = sorted ResourceClass.sort_key_ltb (classes p))
    by (rewrite Hr; reflexivity).
  assert (Hasc : ascending ResourceClass.sort_key_ltb (classes r))
    by (rewrite Hcs; apply sorted_is_ascending, class_ltb_asym).
  split; [rewrite Hcs; apply sorted_Permutation|].
  split; [exact Hasc|].
  now apply single_default_is_last.
Qed.

Lemma ResourcePool_classes_are_arranged_witness :
  post_init
    (mk "private" [Examples.small; Examples.large]
       (Some Examples.quota_4_8_1) (Some 7) false false)
  = Ok Examples.private_pool /\
  Permutation (classes Examples.private_pool)
    (classes (mk "private" [Examples.small; Examples.large]
                (Some Examples.quota_4_8_1) (Some 7) false false)) /\
  ascending ResourceClass.sort_key_ltb (classes Examples.private_pool) /\
  exists front d,
    classes Examples.private_pool = front ++ [d] /\
    ResourceClass.default d = true /\
    Forall (fun c => ResourceClass.default c = false) front.
Proof.
  assert (H : post_init
                (mk "private" [Examples.small; Examples.large]
                   (Some Examples.quota_4_8_1) (Some 7) false false)
              = Ok Examples.private_pool) by reflexivity.
  split; [exact H|].
  exact (ResourcePool_classes_are_arranged _ _ H).
Defined.

Lemma pool_post_init_idem (p r : t) :
  post_init p = Ok r -> post_init r = Ok r.
Proof.
  intros H. pose proof (post_init_Ok_violates p r H) as [_ Hv].
  pose proof (post_init_spec r) as Hspec. rewrite Hv in Hspec.
  rewrite Hspec. f_equal.
  rewrite (post_init_Ok_fields p r H).
  cbn [name classes quota id default public].
  now rewrite (sorted_idempotent _ class_ltb_asym).
Qed.



(** [from_dict] on merged fields, when the classes of [p] that are kept
    are instances. *)
Lemma from_dict_merge_kept (p : t) (kwargs : Kwargs.t) :
  (Kwargs.classes kwargs = None -> Forall ResourceClass.valid (classes p)) ->
  from_dict (merge (asdict p) kwargs) =
    (quota <- match Kwargs.quota kwargs with
              | Some v => quota_of v
              | None => Ok (quota p)
              end ;;
     classes <- match Kwargs.classes kwargs with
                | Some l => comprehension class_of l
                | None => Ok (classes p)
                end ;;
     post_init {| name := get (Kwargs.name kwargs) (name p);
                  id := get (Kwargs.id kwargs) (id p);
                  classes := classes;
                  quota := quota;
                  default := get (Kwargs.default kwargs) (default p);
                  public := get (Kwargs.public kwargs) (public p) |}).
Proof.
  intros Hcs. unfold from_dict, merge, asdict.
  cbn [Dict.name Dict.classes Dict.quota Dict.id Dict.default Dict.public].
  destruct (Kwargs.quota kwargs), (Kwargs.classes kwargs); cbn [get];
    rewrite ?quota_of_asdict, ?(comprehension_asdict _ (Hcs eq_refl));
    reflexivity.
Qed.

(** X11. [ResourcePool.from_dict] undoes [asdict], and [update] without
    arguments changes nothing: both return the pool itself. *)
Theorem ResourcePool_dict_round_trip (p : t) :
  valid p ->
  from_dict (asdict p) = Ok p /\ update p Kwargs.empty = Ok p.
Proof.
  intros Hvalid.
  assert (H : from_dict (merge (asdict p) Kwargs.empty) = Ok p).
  { rewrite (from_dict_merge p _ Hvalid).
    cbn [Kwargs.empty Kwargs.name Kwargs.classes Kwargs.quota Kwargs.id
         Kwargs.default Kwargs.public get bind].
    destruct Hvalid as [Hp _]. destruct p. exact Hp. }
  split; [exact H|].
  unfold update. cbn [Kwargs.empty Kwargs.default].
  rewrite andb_false_r. exact H.
Qed.

Lemma ResourcePool_dict_round_trip_witness :
  valid Examples.private_pool /\
  from_dict (asdict Examples.private_pool) = Ok Examples.private_pool /\
  update Examples.private_pool Kwargs.empty = Ok Examples.private_pool.
Proof.
  assert (Hvalid : valid Examples.private_pool)
    by (split; [reflexivity | repeat constructor]).
  split; [exact Hvalid|].
  exact (ResourcePool_dict_round_trip Examples.private_pool Hvalid).
Defined.
End ConstructedPools.

(** ** Updating pools *)

Section PoolUpdates.
Import ResourcePool.

Lemma get_get {A : Type} (o : option A) (x : A) : get o (get o x) = get o x.
Proof. now destruct o. Qed.

Lemma get_or_else {A : Type} (second first : option A) (x : A) :
  get second (get first x) = get (Kwargs.or_else second first) x.
Proof. now destruct second, first. Qed.

Lemma update_Ok_inv (p : t) (kwargs : Kwargs.t) (r : t) :
  (Kwargs.classes kwargs = None -> Forall ResourceClass.valid (classes p)) ->
  update p kwargs = Ok r ->
  default p && match Kwargs.default kwargs with
               | Some d => negb d
               | None => false
               end = false /\
  exists q cs,
    match Kwargs.quota kwargs with
    | Some v => quota_of v
    | None => Ok (quota p)
    end = Ok q /\
    match Kwargs.classes kwargs with
    | Some l => comprehension class_of l
    | None => Ok (classes p)
    end = Ok cs /\
    post_init (mk (get (Kwargs.name kwargs) (name p)) cs q
                 (get (Kwargs.id kwargs) (id p))
                 (get (Kwargs.default kwargs) (default p))
                 (get (Kwargs.public kwargs) (public p))) = Ok r.
Proof.
  intros Hcs Hupd. unfold update in Hupd.
  destruct (default p && _); [discriminate|]. split; [reflexivity|].
  rewrite (from_dict_merge_kept p kwargs Hcs) in Hupd.
  destruct (match Kwargs.quota kwargs with
            | Some v => quota_of v
            | None => Ok (quota p)
            end) as [q|]; [|discriminate].
  destruct (match Kwargs.classes kwargs with
            | Some l => comprehension class_of l
            | None => Ok (classes p)
            end) as [cs|]; [|discriminate].
  exists q, cs. repeat split. exact Hupd.
Qed.

Lemma update_intro (p : t) (kwargs : Kwargs.t) (q : option Quota.t)
  (cs : list ResourceClass.t) :
  (Kwargs.classes kwargs = None -> Forall ResourceClass.valid (classes p)) ->
  default p && match Kwargs.default kwargs with
               | Some d => negb d
               | None => false
               end = false ->
  match Kwargs.quota kwargs with
  | Some v => quota_of v
  | None => Ok (quota p)
  end = Ok q ->
  match Kwargs.classes kwargs with
  | Some l => comprehension class_of l
  | None => Ok (classes p)
  end = Ok cs ->
  update p kwargs =
  post_init (mk (get (Kwargs.name kwargs) (name p)) cs q
               (get (Kwargs.id kwargs) (id p))
               (get (Kwargs.default kwargs) (default p))
               (get (Kwargs.public kwargs) (public p))).
Proof.
  intros Hcs Hcheck Hq Hc. unfold update. rewrite Hcheck.
  rewrite (from_dict_merge_kept p kwargs Hcs), Hq, Hc. reflexivity.
Qed.

Lemma comprehension_valid
  (l : list (ResourceClass.Dict.t + ResourceClass.t))
  (cs : list ResourceClass.t) :
  Forall (fun c => match c with
                   | inl _ => True
                   | inr rc => ResourceClass.valid rc
                   end) l ->
  comprehension class_of l = Ok cs -> Forall ResourceClass.valid cs.
Proof.
  intros Hl. revert cs. induction Hl as [|c l Hc _ IH]; intros cs; cbn.
  - intros H. injection H as <-. constructor.
  - destruct (class_of c) as [rc|] eqn:Hrc; [|discriminate]. cbn.
    destruct (comprehension class_of l) as [rest|]; [|discriminate]. cbn.
    intros H. injection H as <-. constructor; [|now apply IH].
    destruct c as [d|rc']; cbn in Hrc.
    + now apply class_post_init_valid in Hrc.
    + injection Hrc as <-. exact Hc.
Qed.

Lemma update_valid (p : t) (kwargs : Kwargs.t) (r : t) :
  valid p -> Kwargs.instances kwargs -> update p kwargs = Ok r -> valid r.
Proof.
  intros Hvalid Hinst Hupd.
  destruct (update_Ok_inv p kwargs r (fun _ => proj2 Hvalid) Hupd)
    as (_ & q & cs & _ & Hcs & Hpost).
  split; [exact (pool_post_init_idem _ _ Hpost)|].
  rewrite (post_init_Ok_fields _ _ Hpost). cbn [classes].
  apply (Permutation_Forall
           (Permutation_sym (sorted_Permutation _ cs))).
  unfold Kwargs.instances in Hinst.
  destruct (Kwargs.classes kwargs) as [l|].
  - exact (comprehension_valid l cs Hinst Hcs).
  - injection Hcs as <-. exact (proj2 Hvalid).
Qed.

(** X12. What [update] returns is again a pool instance in canonical
    form, made of class instances: constructing a pool from its fields
    returns the same pool, and so does constructing each of its classes. *)
Theorem update_returns_an_instance (p : t) (kwargs : Kwargs.t) (r : t) :
  valid p -> Kwargs.instances kwargs -> update p kwargs = Ok r ->
  post_init r = Ok r /\
  Forall (fun c => ResourceClass.post_init c = Ok c) (classes r).
Proof. exact (update_valid p kwargs r). Qed.

Lemma update_returns_an_instance_witness :
  (valid Examples.private_pool /\
   Kwargs.instances Examples.classes_small_first /\
   update Examples.private_pool Examples.classes_small_first
   = Ok Examples.private_pool) /\
  post_init Examples.private_pool = Ok Examples.private_pool /\
  Forall (fun c => ResourceClass.post_init c = Ok c)
    (classes Examples.private_pool).
Proof.
  assert (Hvalid : valid Examples.private_pool)
    by (split; [reflexivity | repeat constructor]).
  assert (Hinst : Kwargs.instances Examples.classes_small_first)
    by (repeat constructor).
  assert (Hupd : update Examples.private_pool Examples.classes_small_first
                 = Ok Examples.private_pool) by reflexivity.
  split; [split; [exact Hvalid | split; [exact Hinst | exact Hupd]]|].
  exact (update_returns_an_instance _ _ _ Hvalid Hinst Hupd).
Defined.

(** X13. [update] is idempotent: applying the same keyword arguments to
    the pool it returned gives that pool again. *)
Theorem update_is_idempotent (p : t) (kwargs : Kwargs.t) (r : t) :
  valid p -> update p kwargs = Ok r -> update r kwargs = Ok r.
Proof.
  intros Hvalid Hupd.
  destruct (valid_inv p Hvalid) as [_ Hsorted].
  destruct (update_Ok_inv p kwargs r (fun _ => proj2 Hvalid) Hupd)
    as (_ & q & cs & Hq & Hcs & Hpost).
  pose proof (post_init_Ok_fields _ _ Hpost) as Hr.
  cbn [name classes quota id default public] in Hr.
  assert (Hkept : Kwargs.classes kwargs = None ->
                  Forall ResourceClass.valid (classes r)).
  { intros Hnone. rewrite Hnone in Hcs. injection Hcs as <-.
    rewrite Hr. cbn [classes]. rewrite Hsorted. exact (proj2 Hvalid). }
  rewrite (update_intro r kwargs q cs Hkept).
  - rewrite Hr at 1 2 3 4. cbn [name id default public].
    rewrite !get_get. exact Hpost.
  - rewrite Hr. cbn [default].
    destruct (Kwargs.default kwargs) as [[|]|]; cbn [get negb];
      rewrite ?andb_false_r; reflexivity.
  - destruct (Kwargs.quota kwargs); [exact Hq|].
    rewrite Hr. cbn [quota]. reflexivity.
  - destruct (Kwargs.classes kwargs); [exact Hcs|].
    injection Hcs as <-. rewrite Hr. cbn [classes]. now rewrite Hsorted.
Qed.

Lemma update_is_idempotent_witness :
  (valid Examples.private_pool /\
   update Examples.private_pool Examples.rename_public
   = Ok Examples.shared_pool) /\
  update Examples.shared_pool Examples.rename_public
  = Ok Examples.shared_pool.
Proof.
  assert (Hvalid : valid Examples.private_pool)
    by (split; [reflexivity | repeat constructor]).
  assert (Hupd : update Examples.private_pool Examples.rename_public
                 = Ok Examples.shared_pool) by reflexivity.
  split; [split; assumption|].
  exact (update_is_idempotent _ _ _ Hvalid Hupd).
Defined.

Lemma from_dict_Ok_flags (data : Dict.t) (r : t) :
  from_dict data = Ok r ->
  default r = Dict.default data /\ public r = Dict.public data.
Proof.
  unfold from_dict.
  destruct (quota_of (Dict.quota data)); [|discriminate].
  destruct (comprehension class_of (Dict.classes data)); [|discriminate].
  cbn [bind]. intros H. rewrite (post_init_Ok_fields _ _ H).
  split; reflexivity.
Qed.

(** X14. A default pool stays what it is under [update]: whatever the
    keyword arguments, a pool that [update] returns for a default pool is
    default, public and without quota. *)
Theorem update_keeps_default_pool (p : t) (kwargs : Kwargs.t) (r : t) :
  default p = true -> update p kwargs = Ok r ->
  default r = true /\ public r = true /\ quota r = None.
Proof.
  intros Hd Hupd. unfold update in Hupd. rewrite Hd in Hupd.
  cbn [andb] in Hupd.
  assert (Hdefault : default r = true).
  { destruct (Kwargs.default kwargs) as [[|]|] eqn:Hk;
      cbn [negb] in Hupd; try discriminate;
      apply from_dict_Ok_flags in Hupd; destruct Hupd as [-> _];
      unfold merge; cbn [Dict.default]; rewrite Hk; cbn [get asdict Dict.default];
      [reflexivity | exact Hd]. }
  assert (Hv : violates r = false).
  { destruct (match Kwargs.default kwargs with
              | Some d => negb d
              | None => false
              end); [discriminate|].
    now apply from_dict_Ok_violates in Hupd. }
  unfold violates in Hv. rewrite Hdefault in Hv.
  rewrite !orb_false_iff in Hv. cbn [andb] in Hv.
  destruct Hv as [[[[_ Hpub] Hquota] _] _].
  split; [exact Hdefault|]. split.
  - now apply negb_false_iff.
  - destruct (quota r); [discriminate | reflexivity].
Qed.

Lemma update_keeps_default_pool_witness :
  (default Examples.default_pool = true /\
   update Examples.default_pool Examples.classes_small_first
   = Ok Examples.default_pool) /\
  default Examples.default_pool = true /\
  public Examples.default_pool = true /\
  quota Examples.default_pool = None.
Proof.
  assert (Hd : default Examples.default_pool = true) by reflexivity.
  assert (Hupd : update Examples.default_pool Examples.classes_small_first
                 = Ok Examples.default_pool) by reflexivity.
  split; [split; assumption|].
  exact (update_keeps_default_pool _ _ _ Hd Hupd).
Defined.

(** X15. A quota dictionary with an unknown gpu kind makes [update] raise
    KeyError, not ValidationError: the quota is converted before anything
    is validated, whatever the other keyword arguments are. *)
Theorem update_unknown_gpu_kind (p : t) (kwargs : Kwargs.t)
  (d : Quota.Dict.t) (member : string) :
  default p && match Kwargs.default kwargs with
               | Some b => negb b
               | None => false
               end = false ->
  Kwargs.quota kwargs = Some (Some (inl d)) ->
  Quota.Dict.gpu_kind d = Some (inr member) ->
  member <> "NVIDIA"%string -> member <> "AMD"%string ->
  update p kwargs = Raise (KeyError member).
Proof.
  intros Hcheck Hq Hkind Hn Ha. unfold update. rewrite Hcheck.
  unfold from_dict, merge. cbn [Dict.quota]. rewrite Hq. cbn [get quota_of].
  unfold Quota.from_dict. rewrite Hkind. unfold GpuKind.getitem.
  apply String.eqb_neq in Hn, Ha. rewrite Hn, Ha. reflexivity.
Qed.

Lemma update_unknown_gpu_kind_witness :
  (default Examples.private_pool
   && match Kwargs.default Examples.quota_by_value with
      | Some d => negb d
      | None => false
      end = false /\
   Kwargs.quota Examples.quota_by_value
   = Some (Some (inl Examples.quota_dict_by_value)) /\
   Quota.Dict.gpu_kind Examples.quota_dict_by_value
   = Some (inr (GpuKind.value GpuKind.NVIDIA)) /\
   GpuKind.value GpuKind.NVIDIA <> "NVIDIA"%string /\
   GpuKind.value GpuKind.NVIDIA <> "AMD"%string) /\
  update Examples.private_pool Examples.quota_by_value
  = Raise (KeyError (GpuKind.value GpuKind.NVIDIA)).
Proof.
  assert (H1 : default Examples.private_pool
               && match Kwargs.default Examples.quota_by_value with
                  | Some d => negb d
                  | None => false
                  end = false) by reflexivity.
  assert (H2 : Kwargs.quota Examples.quota_by_value
               = Some (Some (inl Examples.quota_dict_by_value)))
    by reflexivity.
  assert (H3 : Quota.Dict.gpu_kind Examples.quota_dict_by_value
               = Some (inr (GpuKind.value GpuKind.NVIDIA))) by reflexivity.
  assert (H4 : GpuKind.value GpuKind.NVIDIA <> "NVIDIA"%string)
    by discriminate.
  assert (H5 : GpuKind.value GpuKind.NVIDIA <> "AMD"%string)
    by discriminate.
  split; [repeat split; assumption|].
  exact (update_unknown_gpu_kind Examples.private_pool
           Examples.quota_by_value Examples.quota_dict_by_value
           (GpuKind.value GpuKind.NVIDIA) H1 H2 H3 H4 H5).
Defined.
End PoolUpdates.

(** ** Setting quotas *)

Section SettingQuotas.
Import ResourcePool.

Lemma set_quota_as_update (p : t) (q : Quota.t) :
  set_quota p q =
  (_ <- check_quota q (classes p) ;; update p (Kwargs.only_quota q)).
Proof.
  unfold set_quota, update. cbn [Kwargs.only_quota Kwargs.default].
  rewrite andb_false_r. reflexivity.
Qed.

Lemma update_only_quota (p : t) (q : Quota.t) :
  valid p -> update p (Kwargs.only_quota q) = post_init (with_quota p q).
Proof.
  intros Hvalid. unfold update. cbn [Kwargs.only_quota Kwargs.default].
  rewrite andb_false_r, (from_dict_merge p _ Hvalid). reflexivity.
Qed.

Lemma post_init_with_quota_Ok (p : t) (q : Quota.t) (r : t) :
  valid p -> post_init (with_quota p q) = Ok r ->
  r = with_quota p q /\
  forallb (is_resource_class_compatible q) (classes p) = true /\
  default p = false.
Proof.
  intros Hvalid H. destruct (valid_inv p Hvalid) as [_ Hsorted].
  pose proof (post_init_Ok_violates _ _ H) as [Hv _].
  pose proof (post_init_Ok_fields _ _ H) as Hr.
  cbn [with_quota name classes quota id default public] in Hr.
  rewrite Hsorted in Hr. split; [exact Hr|].
  unfold violates in Hv.
  cbn [with_quota name classes quota id default public is_not_None] in Hv.
  rewrite !orb_false_iff in Hv.
  destruct Hv as [[[[_ _] Hd] Hc] _].
  rewrite andb_true_r in Hd. split; [|exact Hd].
  now apply negb_false_iff in Hc.
Qed.

(** X16. [set_quota(val)] and [update(quota=val)] return the same pool
    when either of them returns one, and each raises ValidationError when
    the other does (the two messages differ). *)
Theorem set_quota_is_update_quota (p : t) (q : Quota.t) (r : t) :
  valid p ->
  (set_quota p q = Ok r <-> update p (Kwargs.only_quota q) = Ok r) /\
  (raises_ValidationError (set_quota p q) <->
   raises_ValidationError (update p (Kwargs.only_quota q))).
Proof.
  intros Hvalid. rewrite set_quota_as_update.
  pose proof (check_quota_spec q (classes p)) as Hcheck.
  destruct (forallb (is_resource_class_compatible q) (classes p)) eqn:Hall.
  - rewrite Hcheck. cbn [bind]. split; reflexivity.
  - destruct Hcheck as [m ->]. cbn [bind].
    assert (Hnot : forall r', update p (Kwargs.only_quota q) <> Ok r').
    { intros r' H. rewrite (update_only_quota p q Hvalid) in H.
      apply (post_init_with_quota_Ok p q r' Hvalid) in H.
      destruct H as (_ & H & _). congruence. }
    split.
    + split; [discriminate | intros H; now apply Hnot in H].
    + split; [|intros _; unfold raises_ValidationError; eauto].
      intros _. rewrite (update_only_quota p q Hvalid).
      apply post_init_raises_iff_violation, violates_iff.
      unfold violates. cbn [with_quota classes quota].
      change (compatible_with (Some q))
        with (is_resource_class_compatible q).
      rewrite Hall. cbn [negb]. now rewrite orb_true_r.
Qed.

Lemma set_quota_is_update_quota_witness :
  valid Examples.private_pool /\
  (set_quota Examples.private_pool Examples.quota_4_8_1
   = Ok Examples.private_pool <->
   update Examples.private_pool (Kwargs.only_quota Examples.quota_4_8_1)
   = Ok Examples.private_pool) /\
  (raises_ValidationError
     (set_quota Examples.private_pool Examples.quota_4_8_1) <->
   raises_ValidationError
     (update Examples.private_pool
        (Kwargs.only_quota Examples.quota_4_8_1))).
Proof.
  assert (Hvalid : valid Examples.private_pool)
    by (split; [reflexivity | repeat constructor]).
  split; [exact Hvalid|].
  exact (set_quota_is_update_quota Examples.private_pool
           Examples.quota_4_8_1 Examples.private_pool Hvalid).
Defined.

Lemma set_quota_unfold (p : t) (q : Quota.t) :
  valid p ->
  set_quota p q =
  (_ <- check_quota q (classes p) ;; post_init (with_quota p q)).
Proof.
  intros Hvalid.
  now rewrite set_quota_as_update, (update_only_quota p q Hvalid).
Qed.

Lemma set_quota_Ok_inv (p : t) (q : Quota.t) (r : t) :
  valid p -> set_quota p q = Ok r ->
  r = with_quota p q /\ valid r /\
  forallb (is_resource_class_compatible q) (classes p) = true /\
  default p = false.
Proof.
  intros Hvalid H. rewrite (set_quota_unfold p q Hvalid) in H.
  destruct (check_quota q (classes p)); [|discriminate]. cbn [bind] in H.
  destruct (post_init_with_quota_Ok p q r Hvalid H) as (Hr & Hall & Hd).
  split; [exact Hr|]. split; [|split; assumption].
  split; [exact (pool_post_init_idem _ _ H)|].
  rewrite Hr. exact (proj2 Hvalid).
Qed.

(** X17. The last quota wins: after [set_quota(q1)] has returned a pool,
    [set_quota(q2)] on that pool has the outcome of [set_quota(q2)] on the
    pool one started from. *)
Theorem set_quota_last_wins (p : t) (q1 q2 : Quota.t) (r1 : t) :
  valid p -> set_quota p q1 = Ok r1 ->
  set_quota r1 q2 = set_quota p q2.
Proof.
  intros Hvalid H1.
  destruct (set_quota_Ok_inv p q1 r1 Hvalid H1) as (Hr & Hvalid1 & _ & _).
  rewrite (set_quota_unfold r1 q2 Hvalid1), (set_quota_unfold p q2 Hvalid).
  rewrite Hr. reflexivity.
Qed.

Lemma set_quota_last_wins_witness :
  (valid Examples.private_pool /\
   set_quota Examples.private_pool Examples.quota_8_8_1
   = Ok Examples.roomy_pool) /\
  set_quota Examples.roomy_pool Examples.quota_4_8_1
  = set_quota Examples.private_pool Examples.quota_4_8_1.
Proof.
  assert (Hvalid : valid Examples.private_pool)
    by (split; [reflexivity | repeat constructor]).
  assert (H1 : set_quota Examples.private_pool Examples.quota_8_8_1
               = Ok Examples.roomy_pool) by reflexivity.
  split; [split; assumption|].
  exact (set_quota_last_wins Examples.private_pool Examples.quota_8_8_1
           Examples.quota_4_8_1 Examples.roomy_pool Hvalid H1).
Defined.

Lemma check_quota_first (val : Quota.t) (todo : list ResourceClass.t)
  (c : ResourceClass.t) :
  find (fun cls => negb (is_resource_class_compatible val cls)) todo = Some c ->
  check_quota val todo = Raise (ValidationError (msg_incompatiable c)).
Proof.
  induction todo as [|cls rest IH]; cbn [find check_quota]; [discriminate|].
  destruct (is_resource_class_compatible val cls); cbn [negb].
  - exact IH.
  - intros H. now injection H as <-.
Qed.

(** X18. When some class does not fit the new quota, [set_quota] raises
    the ValidationError that names the first such class in the order of
    the pool: "The resource class with name <name> is not compatiable with
    the quota." *)
Theorem set_quota_names_first_misfit (p : t) (val : Quota.t)
  (c : ResourceClass.t) :
  find (fun cls => negb (is_resource_class_compatible val cls)) (classes p)
  = Some c ->
  set_quota p val =
  Raise (ValidationError
           ("The resource class with name " ++ ResourceClass.name c
            ++ " is not compatiable with the quota.")%string).
Proof.
  intros H. unfold set_quota. rewrite (check_quota_first val _ c H).
  reflexivity.
Qed.

Lemma set_quota_names_first_misfit_witness :
  find (fun cls =>
          negb (is_resource_class_compatible Examples.quota_1_8_1 cls))
       (classes Examples.private_pool)
  = Some Examples.large /\
  set_quota Examples.private_pool Examples.quota_1_8_1 =
  Raise (ValidationError
           ("The resource class with name " ++ ResourceClass.name Examples.large
            ++ " is not compatiable with the quota.")%string).
Proof.
  assert (H : find (fun cls =>
                      negb (is_resource_class_compatible
                              Examples.quota_1_8_1 cls))
                   (classes Examples.private_pool)
              = Some Examples.large) by reflexivity.
  split; [exact H|].
  exact (set_quota_names_first_misfit Examples.private_pool
           Examples.quota_1_8_1 Examples.large H).
Defined.

Lemma set_quota_Ok_intro (p : t) (q : Quota.t) :
  valid p ->
  forallb (is_resource_class_compatible q) (classes p) = true ->
  default p = false ->
  set_quota p q = Ok (with_quota p q).
Proof.
  intros Hvalid Hall Hd. pose proof (set_quota_cases p q Hvalid) as H.
  now rewrite Hall, Hd in H.
Qed.

(** X19. A larger quota is accepted where a smaller one was: when
    [set_quota(q)] returns a pool and [q' >= q], [set_quota(q')] returns
    the pool with the quota [q']. *)
Theorem set_quota_accepts_larger (p : t) (q q' : Quota.t) (r : t) :
  valid p -> set_quota p q = Ok r ->
  ResourcesCompareMixin.ge
    (ResourcesCompareMixin.Quota_ q') (ResourcesCompareMixin.Quota_ q) = true ->
  set_quota p q' = Ok (with_quota p q').
Proof.
  intros Hvalid H Hge.
  destruct (set_quota_Ok_inv p q r Hvalid H) as (_ & _ & Hall & Hd).
  apply (set_quota_Ok_intro p q' Hvalid); [|exact Hd].
  rewrite forallb_forall in Hall |- *. intros c Hin.
  specialize (Hall c Hin). unfold is_resource_class_compatible in *.
  rewrite <- ge_le in Hall |- *.
  now apply ge_trans with (ResourcesCompareMixin.Quota_ q).
Qed.

Lemma set_quota_accepts_larger_witness :
  (valid Examples.private_pool /\
   set_quota Examples.private_pool Examples.quota_4_8_1
   = Ok Examples.private_pool /\
   ResourcesCompareMixin.ge
     (ResourcesCompareMixin.Quota_ Examples.quota_8_8_1)
     (ResourcesCompareMixin.Quota_ Examples.quota_4_8_1) = true) /\
  set_quota Examples.private_pool Examples.quota_8_8_1
  = Ok (with_quota Examples.private_pool Examples.quota_8_8_1).
Proof.
  assert (Hvalid : valid Examples.private_pool)
    by (split; [reflexivity | repeat constructor]).
  assert (H : set_quota Examples.private_pool Examples.quota_4_8_1
              = Ok Examples.private_pool) by reflexivity.
  assert (Hge : ResourcesCompareMixin.ge
                  (ResourcesCompareMixin.Quota_ Examples.quota_8_8_1)
                  (ResourcesCompareMixin.Quota_ Examples.quota_4_8_1) = true)
    by reflexivity.
  split; [split; [exact Hvalid | split; [exact H | exact Hge]]|].
  exact (set_quota_accepts_larger Examples.private_pool Examples.quota_4_8_1
           Examples.quota_8_8_1 Examples.private_pool Hvalid H Hge).
Defined.

Lemma generate_id_compatible (uuid4 : N) (q q' : Quota.t)
  (c : ResourceClass.t) :
  Quota.generate_id uuid4 q = Ok q' ->
  is_resource_class_compatible q' c = is_resource_class_compatible q c.
Proof.
  unfold Quota.generate_id. destruct q as [cpu m g k [i|]]; cbn [Quota.id].
  - intros H. now injection H as <-.
  - intros H. injection H as <-. reflexivity.
Qed.

(** X20. Giving a quota an id does not change which pools accept it: for
    the quota [q'] that [generate_id] returns for [q], [set_quota(q')]
    returns the pool with the quota [q'] exactly when [set_quota(q)]
    returns the pool with the quota [q]. *)
Theorem set_quota_after_generate_id (uuid4 : N) (p : t) (q q' : Quota.t) :
  valid p -> Quota.generate_id uuid4 q = Ok q' ->
  (set_quota p q' = Ok (with_quota p q') <->
   set_quota p q = Ok (with_quota p q)).
Proof.
  intros Hvalid Hgen.
  assert (Hall : forallb (is_resource_class_compatible q') (classes p)
                 = forallb (is_resource_class_compatible q) (classes p)).
  { induction (classes p) as [|c l IH]; cbn [forallb]; [reflexivity|].
    now rewrite IH, (generate_id_compatible uuid4 q q' c Hgen). }
  split; intros H.
  - destruct (set_quota_Ok_inv p q' _ Hvalid H) as (_ & _ & Hc & Hd).
    apply (set_quota_Ok_intro p q Hvalid); congruence.
  - destruct (set_quota_Ok_inv p q _ Hvalid H) as (_ & _ & Hc & Hd).
    apply (set_quota_Ok_intro p q' Hvalid); congruence.
Qed.

Lemma set_quota_after_generate_id_witness :
  (valid Examples.private_pool /\
   Quota.generate_id 7 Examples.quota_4_8_1 = Ok Examples.quota_with_id) /\
  (set_quota Examples.private_pool Examples.quota_with_id
   = Ok (with_quota Examples.private_pool Examples.quota_with_id) <->
   set_quota Examples.private_pool Examples.quota_4_8_1
   = Ok (with_quota Examples.private_pool Examples.quota_4_8_1)).
Proof.
  assert (Hvalid : valid Examples.private_pool)
    by (split; [reflexivity | repeat constructor]).
  assert (Hgen : Quota.generate_id 7 Examples.quota_4_8_1
                 = Ok Examples.quota_with_id) by reflexivity.
  split; [split; assumption|].
  exact (set_quota_after_generate_id 7 Examples.private_pool
           Examples.quota_4_8_1 Examples.quota_with_id Hvalid Hgen).
Defined.
End SettingQuotas.

(** ** Two updates in a row *)

Section UpdateTwice.
Import ResourcePool.

Lemma post_init_presorted (n : string) (cs : list ResourceClass.t)
  (q : option Quota.t) (i : option Z) (d pub : bool) (r : t) :
  post_init (mk n (sorted ResourceClass.sort_key_ltb cs) q i d pub) = Ok r ->
  post_init (mk n cs q i d pub) = Ok r.
Proof.
  intros H. pose proof (post_init_Ok_violates _ _ H) as [Hv _].
  pose proof (post_init_Ok_fields _ _ H) as Hr.
  cbn [name classes quota id default public] in Hr.
  rewrite (sorted_idempotent _ class_ltb_asym) in Hr.
  pose proof (post_init_spec (mk n cs q i d pub)) as Hspec.
  unfold violates in Hv, Hspec.
  cbn [name classes quota id default public] in Hv, Hspec.
  rewrite (Permutation_forallb _ _ _ (sorted_Permutation _ cs)) in Hv.
  rewrite (Permutation_filter_length _ _ _ (sorted_Permutation _ cs)) in Hv.
  rewrite Hv in Hspec. now rewrite Hspec, Hr.
Qed.

(** X21. Two updates in a row are one update with the merged keyword
    arguments, the later ones winning: when [update] with the arguments
    [first] returns a pool and [update] with the arguments [second] on
    that pool returns [r2], then [update] with [first] overridden by
    [second], on the pool one started from, returns [r2]. *)
Theorem update_twice_is_update_merged (p : t) (first second : Kwargs.t)
  (r1 r2 : t) :
  valid p -> Kwargs.instances first ->
  update p first = Ok r1 -> update r1 second = Ok r2 ->
  update p (Kwargs.override first second) = Ok r2.
Proof.
  intros Hvalid Hinst H1 H2.
  pose proof (update_valid p first r1 Hvalid Hinst H1) as Hvalid1.
  destruct (update_Ok_inv p first r1 (fun _ => proj2 Hvalid) H1)
    as (Hcheck1 & q1 & cs1 & Hq1 & Hcs1 & Hpost1).
  destruct (update_Ok_inv r1 second r2 (fun _ => proj2 Hvalid1) H2)
    as (Hcheck2 & q2 & cs2 & Hq2 & Hcs2 & Hpost2).
  pose proof (post_init_Ok_fields _ _ Hpost1) as Hr1.
  cbn [name classes quota id default public] in Hr1.
  rewrite Hr1 in Hcheck2, Hq2, Hcs2, Hpost2.
  cbn [name classes quota id default public] in Hcheck2, Hq2, Hcs2, Hpost2.
  rewrite !get_or_else in Hpost2.
  assert (Hcheck : default p
                   && match Kwargs.default (Kwargs.override first second) with
                      | Some b => negb b
                      | None => false
                      end = false).
  { cbn [Kwargs.override Kwargs.default].
    destruct (Kwargs.default first) as [[|]|],
             (Kwargs.default second) as [[|]|], (default p);
      cbn in Hcheck1, Hcheck2 |- *; congruence. }
  assert (Hq : match Kwargs.quota (Kwargs.override first second) with
               | Some v => quota_of v
               | None => Ok (quota p)
               end = Ok q2).
  { cbn [Kwargs.override Kwargs.quota].
    destruct (Kwargs.quota second); cbn [Kwargs.or_else]; [exact Hq2|].
    injection Hq2 as <-. exact Hq1. }
  assert (Hkept : Kwargs.classes (Kwargs.override first second) = None ->
                  Forall ResourceClass.valid (classes p))
    by (intros _; exact (proj2 Hvalid)).
  destruct (Kwargs.classes second) as [l2|] eqn:Hl2.
  - rewrite (update_intro p _ q2 cs2 Hkept Hcheck Hq).
    + cbn [Kwargs.override Kwargs.name Kwargs.id Kwargs.default
           Kwargs.public]. exact Hpost2.
    + cbn [Kwargs.override Kwargs.classes]. rewrite Hl2. exact Hcs2.
  - injection Hcs2 as <-.
    rewrite (update_intro p _ q2 cs1 Hkept Hcheck Hq).
    + cbn [Kwargs.override Kwargs.name Kwargs.id Kwargs.default
           Kwargs.public]. now apply post_init_presorted.
    + cbn [Kwargs.override Kwargs.classes]. rewrite Hl2. exact Hcs1.
Qed.

Lemma update_twice_is_update_merged_witness :
  (valid Examples.private_pool /\
   Kwargs.instances Examples.rename_public /\
   update Examples.private_pool Examples.rename_public
   = Ok Examples.shared_pool /\
   update Examples.shared_pool Examples.drop_quota = Ok Examples.open_pool) /\
  update Examples.private_pool
    (Kwargs.override Examples.rename_public Examples.drop_quota)
  = Ok Examples.open_pool.
Proof.
  assert (Hvalid : valid Examples.private_pool)
    by (split; [reflexivity | repeat constructor]).
  assert (Hinst : Kwargs.instances Examples.rename_public) by exact I.
  assert (H1 : update Examples.private_pool Examples.rename_public
               = Ok Examples.shared_pool) by reflexivity.
  assert (H2 : update Examples.shared_pool Examples.drop_quota
               = Ok Examples.open_pool) by reflexivity.
  split; [split; [exact Hvalid | split; [exact Hinst | split; assumption]]|].
  exact (update_twice_is_update_merged Examples.private_pool
           Examples.rename_public Examples.drop_quota
           Examples.shared_pool Examples.open_pool Hvalid Hinst H1 H2).
Defined.
End UpdateTwice.

(** ** The order of the classes of a pool *)

Section LocalSorting.
Context {A : Type} (ltb : A -> A -> bool).
Hypothesis ltb_asym : forall x y, ltb x y = true -> ltb y x = false.
Hypothesis ltb_between :
  forall x y z, ltb z y = true -> ltb z x = false -> ltb x y = true.

Lemma insert_insert_comparable (x y : A) (l : list A) :
  x = y \/ ltb x y = true \/ ltb y x = true ->
  insert ltb x (insert ltb y l) = insert ltb y (insert ltb x l).
Proof.
  intros Hxy.
  assert (Htotal : ltb x y = false -> ltb y x = false -> x = y)
    by (intros H1 H2; destruct Hxy as [H|[H|H]]; congruence).
  induction l as [|z rest IH]; simpl.
  - destruct (ltb y x) eqn:Hyx, (ltb x y) eqn:Hxy'; try reflexivity.
    + apply ltb_asym in Hyx. congruence.
    + now rewrite (Htotal eq_refl eq_refl).
  - destruct (ltb z y) eqn:Hzy, (ltb z x) eqn:Hzx; simpl;
      rewrite ?Hzy, ?Hzx.
    + now rewrite IH.
    + now rewrite (ltb_between x y z Hzy Hzx).
    + now rewrite (ltb_between y x z Hzx Hzy).
    + destruct (ltb y x) eqn:Hyx, (ltb x y) eqn:Hxy'; simpl;
        rewrite ?Hzy, ?Hzx; try reflexivity.
      * apply ltb_asym in Hyx. congruence.
      * now rewrite (Htotal eq_refl eq_refl).
Qed.

Lemma sorted_of_Permutation_comparable (l1 l2 : list A) :
  Permutation l1 l2 ->
  (forall a b, In a l1 -> In b l1 ->
               a = b \/ ltb a b = true \/ ltb b a = true) ->
  sorted ltb l1 = sorted ltb l2.
Proof.
  induction 1 as [|x l l' Hperm IH|x y l|l l' l'' H1 IH1 H2 IH2];
    intros Hcmp; simpl.
  - reflexivity.
  - rewrite IH; [reflexivity|].
    intros a b Ha Hb. apply Hcmp; now right.
  - apply insert_insert_comparable. apply Hcmp; simpl; auto.
  - rewrite IH1 by exact Hcmp. apply IH2.
    intros a b Ha Hb. apply Hcmp.
    + now apply (Permutation_in _ (Permutation_sym H1)).
    + now apply (Permutation_in _ (Permutation_sym H1)).
Qed.
End LocalSorting.

Lemma lex_between {A : Type} (eqb ltb : A -> A -> bool)
  (x y z : A) (rzy rzx rxy : bool) :
  ordered_position eqb ltb ->
  (rzy = true -> rzx = false -> rxy = true) ->
  lex eqb ltb z y rzy = true -> lex eqb ltb z x rzx = false ->
  lex eqb ltb x y rxy = true.
Proof.
  intros [Hsym Htrans Hl Hr Hirr Hconn Hlt] Hrest. unfold lex.
  destruct (eqb z y) eqn:Ezy, (eqb z x) eqn:Ezx, (eqb x y) eqn:Exy;
    intros H1 H2; auto.
  - rewrite Hsym in Ezx. now rewrite (Htrans x z y Ezx Ezy) in Exy.
  - rewrite Hsym in Exy. now rewrite (Htrans z y x Ezy Exy) in Ezx.
  - rewrite <- (Hr z y x Ezy). now apply Hconn.
  - now rewrite (Htrans z x y Ezx Exy) in Ezy.
  - now rewrite <- (Hl z x y Ezx).
  - pose proof (Hconn z x Ezx H2) as Hxz.
    pose proof (Hlt x z y Hxz H1) as Hxy.
    now rewrite (Hirr x y Exy) in Hxy.
  - apply (Hlt x z y); [now apply Hconn | exact H1].
Qed.

Lemma bool_position : ordered_position Bool.eqb bool_ltb.
Proof.
  split; intros; repeat match goal with b : bool |- _ => destruct b end;
    cbv in *; congruence.
Qed.

Lemma Z_position : ordered_position Z.eqb Z.ltb.
Proof.
  split; intros *;
    first [ apply Z.eqb_sym
          | rewrite Z.eqb_eq; now intros ->
          | rewrite ?Z.eqb_eq, ?Z.eqb_neq, ?Z.ltb_lt, ?Z.ltb_ge; lia ].
Qed.

Lemma string_position : ordered_position String.eqb String.ltb.
Proof.
  split; intros *.
  - apply String.eqb_sym.
  - rewrite !String.eqb_eq. congruence.
  - rewrite String.eqb_eq. now intros ->.
  - rewrite String.eqb_eq. now intros ->.
  - rewrite String.eqb_eq. intros ->.
    destruct (String.ltb y y) eqn:E; [|reflexivity].
    now rewrite (string_ltb_asym y y E) in E.
  - rewrite String.eqb_neq. intros Hne Hxy.
    destruct (String.ltb y x) eqn:E; [reflexivity|].
    exfalso. apply Hne. now apply string_ltb_total.
  - unfold String.ltb.
    destruct (String.compare x y) eqn:Hxy; try discriminate.
    destruct (String.compare y z) eqn:Hyz; try discriminate.
    now rewrite (string_compare_trans x y z Hxy Hyz).
Qed.

Lemma Q_position : ordered_position Qeq_bool Qltb.
Proof.
  split; intros *.
  - apply Qeq_bool_comm.
  - apply Qeq_bool_trans.
  - intros H. apply Qeq_bool_iff in H. unfold Qltb. now rewrite H.
  - intros H. apply Qeq_bool_iff in H. unfold Qltb. now rewrite H.
  - intros H. apply Qeq_bool_iff in H.
    destruct (Qltb x y) eqn:E; [|reflexivity].
    apply Qltb_lt in E. rewrite H in E. now apply Qlt_irrefl in E.
  - intros Hne Hxy. apply Qltb_lt.
    destruct (Q_dec x y) as [[Hlt|Hgt]|Heq].
    + apply Qltb_lt in Hlt. congruence.
    + exact Hgt.
    + apply Qeq_bool_iff in Heq. congruence.
  - rewrite !Qltb_lt. apply Qlt_trans.
Qed.

Lemma class_ltb_between (x y z : ResourceClass.t) :
  ResourceClass.sort_key_ltb z y = true ->
  ResourceClass.sort_key_ltb z x = false ->
  ResourceClass.sort_key_ltb x y = true.
Proof.
  unfold ResourceClass.sort_key_ltb.
  apply (lex_between _ _ _ _ _ _ _ _ bool_position).
  apply (lex_between _ _ _ _ _ _ _ _ Q_position).
  apply (lex_between _ _ _ _ _ _ _ _ Z_position).
  apply (lex_between _ _ _ _ _ _ _ _ Z_position).
  apply (lex_between _ _ _ _ _ _ _ _ string_position).
  discriminate.
Qed.

Section PoolOrder.
Import ResourcePool.

(** X22. The order in which the classes are given does not matter as long
    as no two different classes have the same (default, cpu, memory,
    default_storage, name): when the construction returns a pool for some
    classes, it returns the same pool for these classes in any other
    order. *)
Theorem ResourcePool_construction_ignores_order (n : string)
  (cs cs' : list ResourceClass.t) (q : option Quota.t) (i : option Z)
  (d pub : bool) (r : t) :
  Permutation cs cs' ->
  (forall a b, In a cs -> In b cs ->
     a = b \/ ResourceClass.sort_key_ltb a b = true
     \/ ResourceClass.sort_key_ltb b a = true) ->
  post_init (mk n cs q i d pub) = Ok r ->
  post_init (mk n cs' q i d pub) = Ok r.
Proof.
  intros Hperm Hcmp H.
  pose proof (post_init_Ok_violates _ _ H) as [Hv _].
  pose proof (post_init_Ok_fields _ _ H) as Hr.
  cbn [name classes quota id default public] in Hr.
  pose proof (post_init_spec (mk n cs' q i d pub)) as Hspec.
  unfold violates in Hv, Hspec.
  cbn [name classes quota id default public] in Hv, Hspec.
  rewrite (Permutation_forallb _ _ _ Hperm) in Hv.
  rewrite (Permutation_filter_length _ _ _ Hperm) in Hv.
  rewrite Hv in Hspec. rewrite Hspec, Hr.
  now rewrite (sorted_of_Permutation_comparable _ class_ltb_asym
                 class_ltb_between cs cs' Hperm Hcmp).
Qed.

Lemma ResourcePool_construction_ignores_order_witness :
  (Permutation [Examples.small; Examples.large]
     [Examples.large; Examples.small] /\
   (forall a b, In a [Examples.small; Examples.large] ->
                In b [Examples.small; Examples.large] ->
      a = b \/ ResourceClass.sort_key_ltb a b = true
      \/ ResourceClass.sort_key_ltb b a = true) /\
   post_init (mk "private" [Examples.small; Examples.large]
                (Some Examples.quota_4_8_1) (Some 7) false false)
   = Ok Examples.private_pool) /\
  post_init (mk "private" [Examples.large; Examples.small]
               (Some Examples.quota_4_8_1) (Some 7) false false)
  = Ok Examples.private_pool.
Proof.
  assert (Hperm : Permutation [Examples.small; Examples.large]
                    [Examples.large; Examples.small]) by apply perm_swap.
  assert (Hcmp : forall a b, In a [Examples.small; Examples.large] ->
                             In b [Examples.small; Examples.large] ->
            a = b \/ ResourceClass.sort_key_ltb a b = true
            \/ ResourceClass.sort_key_ltb b a = true).
  { intros a b [<-|[<-|[]]] [<-|[<-|[]]];
      first [now left | now right; left | now right; right]. }
  assert (H : post_init (mk "private" [Examples.small; Examples.large]
                           (Some Examples.quota_4_8_1) (Some 7) false false)
              = Ok Examples.private_pool) by reflexivity.
  split; [split; [exact Hperm | split; [exact Hcmp | exact H]]|].
  exact (ResourcePool_construction_ignores_order _ _ _ _ _ _ _ _
           Hperm Hcmp H).
Defined.
End PoolOrder.
